(** * Batch ingestion of JSON records into a document collection

    A shallow embedding of [src/json_to_mongo.py] (class
    [MongoDBDataLoader] and [main]).  The two stores the loader talks to
    are external collaborators:

    - the object store (boto3) is a finite listing of objects, read only;
    - the document store (pymongo) is a collection whose answers to
      [create_index] and [insert_one] are parameters of the development.

    Python exceptions are explicit: every method is a computation that
    takes the collection, and yields an outcome (a value or a raised
    exception), the collection afterwards and the calls and log records
    it made, oldest first. *)

From Stdlib Require Import String Ascii List ZArith Bool Arith Lia.
Import ListNotations.
Local Open Scope string_scope.
Local Open Scope list_scope.

(** ** Python values produced by [json.loads] *)

#[local] Unset Elimination Schemes.
Inductive json : Type :=
| JNull
| JBool (b : bool)
| JNum (n : Z)          (* a number; the loader never looks inside one *)
| JStr (s : string)
| JArr (items : list json)
| JObj (fields : list (string * json)).
#[local] Set Elimination Schemes.

(** Structural induction that reaches inside lists and dicts. *)
Section JsonInd.
Variable P : json -> Prop.
Hypothesis HNull : P JNull.
Hypothesis HBool : forall b, P (JBool b).
Hypothesis HNum : forall n, P (JNum n).
Hypothesis HStr : forall s, P (JStr s).
Hypothesis HArr : forall items, Forall P items -> P (JArr items).
Hypothesis HObj : forall fields, Forall (fun kv => P (snd kv)) fields -> P (JObj fields).

Fixpoint json_ind (v : json) : P v :=
  match v with
  | JNull => HNull
  | JBool b => HBool b
  | JNum n => HNum n
  | JStr s => HStr s
  | JArr items =>
      HArr items
        ((fix all (l : list json) : Forall P l :=
            match l with
            | [] => Forall_nil _
            | x :: r => Forall_cons x (json_ind x) (all r)
            end) items)
  | JObj fields =>
      HObj fields
        ((fix all (l : list (string * json)) : Forall (fun kv => P (snd kv)) l :=
            match l with
            | [] => Forall_nil _
            | kv :: r => Forall_cons kv (json_ind (snd kv)) (all r)
            end) fields)
  end.
End JsonInd.

Fixpoint json_eqb (a b : json) {struct a} : bool :=
  match a, b with
  | JNull, JNull => true
  | JBool x, JBool y => Bool.eqb x y
  | JNum x, JNum y => Z.eqb x y
  | JStr x, JStr y => String.eqb x y
  | JArr xs, JArr ys =>
      (fix go (l1 l2 : list json) {struct l1} : bool :=
         match l1, l2 with
         | [], [] => true
         | x :: r1, y :: r2 => json_eqb x y && go r1 r2
         | _, _ => false
         end) xs ys
  | JObj xs, JObj ys =>
      (fix go (l1 l2 : list (string * json)) {struct l1} : bool :=
         match l1, l2 with
         | [], [] => true
         | (k1, x) :: r1, (k2, y) :: r2 => String.eqb k1 k2 && json_eqb x y && go r1 r2
         | _, _ => false
         end) xs ys
  | _, _ => false
  end.

Definition option_json_eqb (a b : option json) : bool :=
  match a, b with
  | Some x, Some y => json_eqb x y
  | None, None => true
  | _, _ => false
  end.

(** [isinstance(v, dict)]: the documents [insert_one] is meant for. *)
Definition is_mapping (v : json) : bool :=
  match v with JObj _ => true | _ => false end.

(** Lookup in a decoded dict (its keys are pairwise different). *)
Fixpoint dict_lookup (k : string) (fields : list (string * json)) : option json :=
  match fields with
  | [] => None
  | (k', v) :: rest => if String.eqb k k' then Some v else dict_lookup k rest
  end.

(** [d.get(k, default)] on a dict. *)
Definition dict_get (fields : list (string * json)) (k : string) (default : json) : json :=
  match dict_lookup k fields with
  | Some v => v
  | None => default
  end.

(** The value a document has for field [k]; nothing when the field is
    absent or the value is not a dict. *)
Definition field_value (k : string) (doc : json) : option json :=
  match doc with
  | JObj fields => dict_lookup k fields
  | _ => None
  end.

(** ** Python string helpers *)

(** [s.endswith(suffix)] *)
Definition endswith (s suffix : string) : bool :=
  let n := String.length s in
  let m := String.length suffix in
  (m <=? n)%nat && String.eqb (substring (n - m) m s) suffix.

(** [s.startswith(p)] *)
Definition startswith (s p : string) : bool := String.prefix p s.

(** [os.path.join(a, b)] of [posixpath], for two components. *)
Definition os_path_join (a b : string) : string :=
  if startswith b "/" then b
  else if String.eqb a "" || endswith a "/" then (a ++ b)%string
  else (a ++ "/" ++ b)%string.

(** ** The object store *)

(** What [Object(key).get()['Body'].read()] followed by
    [json.loads(data.decode('utf-8'))] gives for an object: the decoded
    value, or an exception when the bytes are not UTF-8 or not JSON. *)
Inductive body : Type :=
| Undecodable
| Json (v : json).

Record s3_object : Type := { key : string; content : body }.

(** The bucket, in the order the store lists it. *)
Definition bucket : Type := list s3_object.

(** [bucket.objects.filter(Prefix=p)] *)
Definition objects_filter (b : bucket) (p : string) : list s3_object :=
  filter (fun o => startswith (key o) p) b.

(** Lines 46-47: a folder key ends in the separator. *)
Definition folder_prefix (folder_key : string) : string :=
  if negb (endswith folder_key "/") then (folder_key ++ "/")%string else folder_key.

(** Lines 48-49: [any(objects.filter(Prefix=folder_key).limit(1))]; an
    object summary is truthy. *)
Definition folder_hit (b : bucket) (folder_key : string) : bool :=
  existsb (fun _ => true) (firstn 1 (objects_filter b folder_key)).

(** Lines 90-93 and 100-103: the keys under [batch_dir] that end in
    [.json], in listing order. *)
Definition json_keys (b : bucket) (batch_dir : string) : list string :=
  map key (filter (fun obj => endswith (key obj) ".json") (objects_filter b batch_dir)).

(** [bucket.Object(k).get()]: the first object stored under [k]. *)
Definition object_get (b : bucket) (k : string) : option s3_object :=
  find (fun o => String.eqb (key o) k) b.

(** ** The document store *)

(** The collection: its documents in insertion order, and the fields
    that carry a unique index. *)
Record collection : Type := { docs : list json; indexes : list string }.

Definition empty_collection : collection := {| docs := []; indexes := [] |}.

Definition add_doc (c : collection) (d : json) : collection :=
  {| docs := docs c ++ [d]; indexes := indexes c |}.

Definition has_index (c : collection) (f : string) : bool :=
  existsb (String.eqb f) (indexes c).

Definition add_index (c : collection) (f : string) : collection :=
  if has_index c f then c else {| docs := docs c; indexes := f :: indexes c |}.

(** The answers of [insert_one]. *)
Inductive insert_result : Type :=
| InsertOk
| DuplicateKey
| OtherError.

(** ** Exceptions, log records and calls *)

Inductive exn : Type :=
| DuplicateKeyError     (* pymongo.errors.DuplicateKeyError *)
| StoreWriteError       (* any other exception of insert_one *)
| IndexBuildError       (* an exception of create_index *)
| AttributeError        (* .get on a value that is not a dict *)
| NoSuchKey             (* get() on a key the bucket does not hold *)
| DecodeError           (* UnicodeDecodeError or json.JSONDecodeError *)
| SystemExit.           (* raised by exit() *)

(** [except Exception] lets [SystemExit] through. *)
Definition is_Exception (e : exn) : bool :=
  match e with SystemExit => false | _ => true end.

Definition is_DuplicateKeyError (e : exn) : bool :=
  match e with DuplicateKeyError => true | _ => false end.

Inductive level : Type := INFO | WARNING | ERROR.

Inductive message : Type :=
| LoadedBatches (n : nat)
| ProcessingPrimary (batch_name : string) (n : nat)
| ProcessingAlternative (batch_dir : string) (n : nat)
| BatchNotFound (batch_dir : string)
| IndexCreated (index_value : string)
| IndexFailed (index_value : string) (e : exn)
| DuplicateSkipped (id : json) (e : exn)
| FailedInsert (json_file_path : string) (e : exn).

Inductive event : Type :=
| S3Probe (prefix : string) (hit : bool)   (* objects.filter(Prefix).limit(1) *)
| S3List (prefix : string)                 (* objects.filter(Prefix), iterated *)
| S3Get (k : string)                       (* Object(k).get() *)
| CreateIndex (field : string) (ok : bool) (* collection.create_index(field, unique=True) *)
| InsertOne (doc : json) (r : insert_result)
| Log (l : level) (m : message).

(** ** Computations *)

Inductive outcome (A : Type) : Type :=
| Return (a : A)
| Raise (e : exn).
Arguments Return {A} a.
Arguments Raise {A} e.

Definition M (A : Type) : Type := collection -> outcome A * collection * list event.

Definition ret {A} (a : A) : M A := fun c => (Return a, c, []).

Definition raise {A} (e : exn) : M A := fun c => (Raise e, c, []).

Definition bind {A B} (m : M A) (f : A -> M B) : M B :=
  fun c =>
    match m c with
    | (Return a, c1, t1) =>
        match f a c1 with
        | (r, c2, t2) => (r, c2, t1 ++ t2)
        end
    | (Raise e, c1, t1) => (Raise e, c1, t1)
    end.

Notation "x <- m ;; k" := (bind m (fun x => k))
  (at level 61, m at next level, right associativity).
Notation "m ;; k" := (bind m (fun _ => k))
  (at level 61, right associativity).

Definition emit (e : event) : M unit := fun c => (Return tt, c, [e]).

Definition log (l : level) (m : message) : M unit := emit (Log l m).

(** [try: m  except <handles> as e: h e] *)
Definition try_except {A} (m : M A) (handles : exn -> bool) (h : exn -> M A) : M A :=
  fun c =>
    match m c with
    | (Return a, c1, t1) => (Return a, c1, t1)
    | (Raise e, c1, t1) =>
        if handles e then
          match h e c1 with
          | (r, c2, t2) => (r, c2, t1 ++ t2)
          end
        else (Raise e, c1, t1)
    end.

(** [for x in xs: f x] *)
Fixpoint for_ {X} (xs : list X) (f : X -> M unit) : M unit :=
  match xs with
  | [] => ret tt
  | x :: rest => f x ;; for_ rest f
  end.

(** The parts of a run. *)
Definition result_of {A} (r : outcome A * collection * list event) : outcome A := fst (fst r).
Definition collection_of {A} (r : outcome A * collection * list event) : collection := snd (fst r).
Definition trace_of {A} (r : outcome A * collection * list event) : list event := snd r.
Arguments result_of {A} !r /.
Arguments collection_of {A} !r /.
Arguments trace_of {A} !r /.

(** A relation between the collection before and after, kept by every
    run of a computation. *)
Definition stable (R : collection -> collection -> Prop) {A} (m : M A) : Prop :=
  forall c, R c (collection_of (m c)).

(** A property of every call and log record of a computation. *)
Definition emits_only (P : event -> Prop) {A} (m : M A) : Prop :=
  forall c, Forall P (trace_of (m c)).

(** The documents handed to [insert_one], in order. *)
Fixpoint attempts (t : list event) : list json :=
  match t with
  | [] => []
  | InsertOne d _ :: rest => d :: attempts rest
  | _ :: rest => attempts rest
  end.

(** The answers [insert_one] gave, in order. *)
Fixpoint verdicts (t : list event) : list insert_result :=
  match t with
  | [] => []
  | InsertOne _ r :: rest => r :: verdicts rest
  | _ :: rest => verdicts rest
  end.

(** The documents [insert_one] accepted, in order. *)
Fixpoint inserted (t : list event) : list json :=
  match t with
  | [] => []
  | InsertOne d InsertOk :: rest => d :: inserted rest
  | _ :: rest => inserted rest
  end.

(** How many objects were reported as failing to decode. *)
Fixpoint decode_failures (t : list event) : nat :=
  match t with
  | [] => 0
  | Log ERROR (FailedInsert _ DecodeError) :: rest => S (decode_failures rest)
  | _ :: rest => decode_failures rest
  end.

Definition is_probe (e : event) : bool :=
  match e with S3Probe _ _ => true | _ => false end.

Definition is_create_index (e : event) : bool :=
  match e with CreateIndex _ _ => true | _ => false end.

(** ** Configuration *)

(** The part of the OmegaConf object the loader reads.  The two roots
    are [cfg.paths.*] after [Path(...)], as [os.fspath] gives them. *)
Record DictConfig : Type := {
  primary_longterm_storage : string;
  secondary_longterm_storage : string;
  batches : list string
}.

(** The fields of a [MongoDBDataLoader] instance that its methods read. *)
Record MongoDBDataLoader : Type := {
  cfg : DictConfig;
  primary_s3_root : string;
  secondary_s3_root : string;
  s3_bucket : bucket
}.

(** The assignments of [__init__] (lines 25-41). *)
Definition new_loader (s3 : bucket) (cfg : DictConfig) : MongoDBDataLoader :=
  {| cfg := cfg;
     primary_s3_root := primary_longterm_storage cfg;
     secondary_s3_root := secondary_longterm_storage cfg;
     s3_bucket := s3 |}.

(** The identifier field the constructor indexes. *)
Definition cutout_id : string := "cutout_id".

Definition identifier (doc : json) : option json := field_value cutout_id doc.

(** ** The loader *)

Section Loader.

(** The document store's answers: whether [create_index(f, unique=True)]
    succeeds on a collection, and what [insert_one] says of a document. *)
Variable create_index : collection -> string -> bool.
Variable insert_one : collection -> json -> insert_result.

(** [self.collection.create_index(index_value, unique=True)] *)
Definition collection_create_index (f : string) : M unit :=
  fun c =>
    if create_index c f
    then (Return tt, add_index c f, [CreateIndex f true])
    else (Raise IndexBuildError, c, [CreateIndex f false]).

(** [self.collection.insert_one(doc, bypass_document_validation=False)] *)
Definition collection_insert_one (doc : json) : M unit :=
  fun c =>
    match insert_one c doc with
    | InsertOk => (Return tt, add_doc c doc, [InsertOne doc InsertOk])
    | DuplicateKey => (Raise DuplicateKeyError, c, [InsertOne doc DuplicateKey])
    | OtherError => (Raise StoreWriteError, c, [InsertOne doc OtherError])
    end.

(** [item.get(k, default)]: only a dict has [get]. *)
Definition py_get (item : json) (k : string) (default : json) : M json :=
  match item with
  | JObj fields => ret (dict_get fields k default)
  | _ => raise AttributeError
  end.

(** [s3_folder_exists] *)
Definition s3_folder_exists (self : MongoDBDataLoader) (folder_key : string) : M bool :=
  let folder_key := folder_prefix folder_key in
  let hit := folder_hit (s3_bucket self) folder_key in
  emit (S3Probe folder_key hit) ;;
  ret hit.

(** [load_batches_from_yaml] *)
Definition load_batches_from_yaml (self : MongoDBDataLoader) : M (list string) :=
  let batches := batches (cfg self) in
  log INFO (LoadedBatches (List.length batches)) ;;
  ret batches.

(** [create_id_index] *)
Definition create_id_index (data_type : string) : M unit :=
  let index_value := if String.eqb data_type "cutouts" then cutout_id else "image_id" in
  try_except
    (collection_create_index index_value ;;
     log INFO (IndexCreated index_value))
    is_Exception
    (fun e =>
       log ERROR (IndexFailed index_value e) ;;
       raise SystemExit).

(** The [try ... except DuplicateKeyError] around one [insert_one]. *)
Definition insert_item (item : json) : M unit :=
  try_except
    (collection_insert_one item)
    is_DuplicateKeyError
    (fun e =>
       id <- py_get item cutout_id (JStr "unknown") ;;
       log WARNING (DuplicateSkipped id e)).

(** Lines 134-135: fetch the object and decode it. *)
Definition fetch_json (self : MongoDBDataLoader) (json_file_path : string) : M json :=
  emit (S3Get json_file_path) ;;
  match object_get (s3_bucket self) json_file_path with
  | None => raise NoSuchKey
  | Some o =>
      match content o with
      | Undecodable => raise DecodeError
      | Json v => ret v
      end
  end.

(** Lines 138-148: a list is inserted element by element, anything
    else as one document. *)
Definition insert_data (data : json) : M unit :=
  match data with
  | JArr items => for_ items insert_item
  | _ => insert_item data
  end.

(** [insert_data_from_file] *)
Definition insert_data_from_file (self : MongoDBDataLoader) (json_file_path : string) : M unit :=
  try_except
    (data <- fetch_json self json_file_path ;;
     insert_data data)
    is_Exception
    (fun e => log ERROR (FailedInsert json_file_path e)).

(** Line 111-112: the files of a resolved batch directory. *)
Definition batch_files (self : MongoDBDataLoader) (batch_dir : string) : M unit :=
  for_ (json_keys (s3_bucket self) batch_dir) (insert_data_from_file self).

(** The loop that fills [json_files] (lines 90-93 and 100-103). *)
Definition list_json_files (self : MongoDBDataLoader) (batch_dir : string) : M (list string) :=
  emit (S3List batch_dir) ;;
  ret (json_keys (s3_bucket self) batch_dir).

(** The body of the loop over [batches]; the [continue] of line 109 is
    the branch that ends without touching any file. *)
Definition load_batch (self : MongoDBDataLoader) (batch_name : string) : M unit :=
  let batch_dir := os_path_join (primary_s3_root self) batch_name in
  found <- s3_folder_exists self batch_dir ;;
  if found then
    json_files <- list_json_files self batch_dir ;;
    log INFO (ProcessingPrimary batch_name (List.length json_files)) ;;
    for_ json_files (insert_data_from_file self)
  else
    let batch_dir := os_path_join (secondary_s3_root self) batch_name in
    found <- s3_folder_exists self batch_dir ;;
    if found then
      json_files <- list_json_files self batch_dir ;;
      log INFO (ProcessingAlternative batch_dir (List.length json_files)) ;;
      for_ json_files (insert_data_from_file self)
    else
      log WARNING (BatchNotFound batch_dir).

(** [load_json_files_from_batches] *)
Definition load_json_files_from_batches (self : MongoDBDataLoader) (batches : list string) : M unit :=
  for_ batches (load_batch self).

(** [__init__]: the instance, then [create_id_index("cutouts")]. *)
Definition init (s3 : bucket) (cfg : DictConfig) : M MongoDBDataLoader :=
  let self := new_loader s3 cfg in
  create_id_index "cutouts" ;;
  ret self.

(** [main] *)
Definition main (s3 : bucket) (cfg : DictConfig) : M unit :=
  data_loader <- init s3 cfg ;;
  batch_names <- load_batches_from_yaml data_loader ;;
  load_json_files_from_batches data_loader batch_names.

(** The process run once per element of [runs], each time on the
    bucket and configuration of that element; the collection is what
    persists from one run to the next. *)
Definition run_all (runs : list (bucket * DictConfig)) (c : collection) : collection :=
  fold_left (fun c r => collection_of (main (fst r) (snd r) c)) runs c.

End Loader.

(** ** A document store with a unique index and a validator

    The store used to run the loader on concrete inputs: an insert is a
    duplicate when the unique index on [cutout_id] is in place and the
    collection already holds the document's value for it; otherwise the
    collection's validator decides between acceptance and a write
    error.  Creating the index again is a no-op; creating it on a
    collection that holds two documents with one value fails. *)

Definition id_taken (c : collection) (d : json) : bool :=
  existsb (fun d' => option_json_eqb (identifier d') (identifier d)) (docs c).

Fixpoint distinct_values (l : list (option json)) : bool :=
  match l with
  | [] => true
  | x :: rest => negb (existsb (option_json_eqb x) rest) && distinct_values rest
  end.

Definition unique_create_index (c : collection) (f : string) : bool :=
  has_index c f || distinct_values (map (field_value f) (docs c)).

Definition unique_insert_one (valid : json -> bool) (c : collection) (d : json) : insert_result :=
  if has_index c cutout_id && id_taken c d then DuplicateKey
  else if valid d then InsertOk
  else OtherError.

(** A validator that accepts every document, and one that wants a
    field [v]. *)
Definition accept_all (d : json) : bool := true.

Definition requires_v (d : json) : bool :=
  match field_value "v" d with Some _ => true | None => false end.

(** ** Relations between a collection and a later one *)

(** [c'] is [c] with documents appended, the indexes unchanged. *)
Definition extends (c c' : collection) : Prop :=
  indexes c' = indexes c /\ exists new, docs c' = docs c ++ new.

(** [c'] is [c] with documents appended whose identifier values are
    pairwise different and different from every one in [c]. *)
Definition adds_fresh (c c' : collection) : Prop :=
  exists new,
    docs c' = docs c ++ new
    /\ NoDup (map identifier new)
    /\ forall d, In d new -> ~ In (identifier d) (map identifier (docs c)).

(** The same, for a collection that has the index on [cutout_id]. *)
Definition fresh_extension (c c' : collection) : Prop :=
  has_index c cutout_id = true -> indexes c' = indexes c /\ adds_fresh c c'.

(** Every identifier value of [c] is one of [c']. *)
Definition covers (c' c : collection) : Prop :=
  incl (map identifier (docs c)) (map identifier (docs c')).

(** A computation replays on [c'] when, [c'] holding every identifier
    value that a run from [c] without write error ends with, its run
    from [c'] leaves [c'] as it is and gets only duplicate keys. *)
Definition replays {A} (m : M A) : Prop :=
  forall c c',
    has_index c cutout_id = true ->
    has_index c' cutout_id = true ->
    covers c' (collection_of (m c)) ->
    ~ In OtherError (verdicts (trace_of (m c))) ->
    collection_of (m c') = c'
    /\ Forall (eq DuplicateKey) (verdicts (trace_of (m c'))).

(** ** What a run leaves in its trace and finds in an object *)

(** The keys handed to [Object(k).get()], in order. *)
Fixpoint fetched (t : list event) : list string :=
  match t with
  | [] => []
  | S3Get k :: rest => k :: fetched rest
  | _ :: rest => fetched rest
  end.

(** The directories reported as found under neither root, in order. *)
Fixpoint not_found (t : list event) : list string :=
  match t with
  | [] => []
  | Log WARNING (BatchNotFound d) :: rest => d :: not_found rest
  | _ :: rest => not_found rest
  end.

(** The documents lines 138-148 hand to [insert_one] for an object: the
    elements of a list, the value itself otherwise, none for an object
    that does not decode. *)
Definition records (b : body) : list json :=
  match b with
  | Undecodable => []
  | Json (JArr items) => items
  | Json v => [v]
  end.

(** The call and the log record of a guarded insert. *)
Definition insert_event (e : event) : Prop :=
  match e with
  | InsertOne _ _ => True
  | Log WARNING (DuplicateSkipped _ _) => True
  | _ => False
  end.

(** The calls and log records of one file. *)
Definition file_event (e : event) : Prop :=
  match e with
  | S3Get _ => True
  | InsertOne _ _ => True
  | Log WARNING (DuplicateSkipped _ _) => True
  | Log ERROR (FailedInsert _ _) => True
  | _ => False
  end.

(** The collection holds the identifier value of [x]. *)
Definition holds (c : collection) (x : json) : Prop :=
  In (identifier x) (map identifier (docs c)).

(** A computation after which, when it ran from a collection with the
    index and met no write error, the collection holds the identifier
    value of every record of every object it fetched from [b]. *)
Definition complete (b : bucket) {A} (m : M A) : Prop :=
  forall c,
    has_index c cutout_id = true ->
    ~ In OtherError (verdicts (trace_of (m c))) ->
    forall k o x,
      In k (fetched (trace_of (m c))) ->
      object_get b k = Some o ->
      In x (records (content o)) ->
      holds (collection_of (m c)) x.

(** A computation that hands to the store only records of objects it
    fetched from [b]. *)
Definition sound (b : bucket) {A} (m : M A) : Prop :=
  forall c d,
    In d (attempts (trace_of (m c))) ->
    exists k o,
      In k (fetched (trace_of (m c)))
      /\ object_get b k = Some o
      /\ In d (records (content o)).

(** A computation whose accepted inserts are all that changes the
    documents of the collection. *)
Definition accounted {A} (m : M A) : Prop :=
  forall c, docs (collection_of (m c)) = docs c ++ inserted (trace_of (m c)).

(** ** Inputs the loader is run on below *)

Definition cutout (id : string) : json := JObj [("cutout_id", JStr id); ("v", JNum 1)].

(** A record the validator [requires_v] rejects. *)
Definition bare (id : string) : json := JObj [("cutout_id", JStr id)].

Definition object (k : string) (v : json) : s3_object := {| key := k; content := Json v |}.

Definition config (names : list string) : DictConfig :=
  {| primary_longterm_storage := "root";
     secondary_longterm_storage := "alt";
     batches := names |}.

(** A collection with the index in place. *)
Definition indexed (ds : list json) : collection := {| docs := ds; indexes := [cutout_id] |}.

(** Batch [B]: a list whose second record is rejected, and a single
    record. *)
Definition mixed_bucket : bucket :=
  [ object "root/B/a.json" (JArr [cutout "a"; bare "b"; cutout "c"]);
    object "root/B/b.json" (cutout "d") ].

(** Batches [abc] and [abcdef] under the primary root. *)
Definition collision_bucket : bucket :=
  [ object "root/abc/a.json" (cutout "x1");
    object "root/abcdef/b.json" (cutout "y1") ].

(** Batch [T] under the secondary root: nine records and one object
    that does not decode. *)
Definition ten_bucket : bucket :=
  [ object "alt/T/0.json" (cutout "t0");
    object "alt/T/1.json" (cutout "t1");
    object "alt/T/2.json" (cutout "t2");
    object "alt/T/3.json" (cutout "t3");
    {| key := "alt/T/4.json"; content := Undecodable |};
    object "alt/T/5.json" (cutout "t5");
    object "alt/T/6.json" (cutout "t6");
    object "alt/T/7.json" (cutout "t7");
    object "alt/T/8.json" (cutout "t8");
    object "alt/T/9.json" (cutout "t9") ].

(** The list object of batch [B], ingested by a store that validates. *)
Definition mixed_list : list json := [cutout "a"; bare "b"; cutout "c"].

Definition mixed_loader : MongoDBDataLoader := new_loader mixed_bucket (config ["B"]).

Definition mixed_file_run : outcome unit * collection * list event :=
  insert_data_from_file (unique_insert_one requires_v) mixed_loader "root/B/a.json"
    (indexed []).

(** Two runs of the process on batch [B], the second from the
    collection the first left. *)
Definition mixed_first_run : outcome unit * collection * list event :=
  main unique_create_index (unique_insert_one requires_v) mixed_bucket (config ["B"])
    empty_collection.

Definition mixed_second_run : outcome unit * collection * list event :=
  main unique_create_index (unique_insert_one requires_v) mixed_bucket (config ["B"])
    (collection_of mixed_first_run).

(** The process on batch [abc] alone. *)
Definition collision_run : outcome unit * collection * list event :=
  main unique_create_index (unique_insert_one accept_all) collision_bucket (config ["abc"])
    empty_collection.

(** The process on batch [T]. *)
Definition ten_run : outcome unit * collection * list event :=
  main unique_create_index (unique_insert_one accept_all) ten_bucket (config ["T"])
    empty_collection.

(** Batch [B1] of the specification's scenarios, and its two runs. *)
Definition b1_bucket : bucket := [ object "root/B1/a.json" (cutout "x1") ].

Definition b1_first_run : outcome unit * collection * list event :=
  main unique_create_index (unique_insert_one accept_all) b1_bucket (config ["B1"])
    empty_collection.

Definition b1_second_run : outcome unit * collection * list event :=
  main unique_create_index (unique_insert_one accept_all) b1_bucket (config ["B1"])
    (collection_of b1_first_run).




Definition ten_loader : MongoDBDataLoader := new_loader ten_bucket (config ["T"]).

Definition b1_loader : MongoDBDataLoader := new_loader b1_bucket (config ["B1"]).

(** ** Batch resolution as the specification words it

    [resolve(batchName, primaryRoot, secondaryRoot)]: the primary root
    when at least one object exists under [primaryRoot/batchName], else
    the secondary root when one exists under [secondaryRoot/batchName],
    else not found. *)

Inductive resolution : Type :=
| ResolvedPrimary
| ResolvedSecondary
| NotFound.

Definition exists_under (b : bucket) (dir : string) : bool :=
  existsb (fun o => startswith (key o) (folder_prefix dir)) b.

Definition resolve (b : bucket) (batchName primaryRoot secondaryRoot : string) : resolution :=
  if exists_under b (os_path_join primaryRoot batchName) then ResolvedPrimary
  else if exists_under b (os_path_join secondaryRoot batchName) then ResolvedSecondary
  else NotFound.

(** The batch names found under neither root, and the listing a batch
    name resolves to. *)
Definition unresolved (self : MongoDBDataLoader) (batch_name : string) : bool :=
  match resolve (s3_bucket self) batch_name (primary_s3_root self) (secondary_s3_root self) with
  | NotFound => true
  | _ => false
  end.

Definition resolved_listing (self : MongoDBDataLoader) (batch_name : string) : list string :=
  match resolve (s3_bucket self) batch_name (primary_s3_root self) (secondary_s3_root self) with
  | ResolvedPrimary =>
      json_keys (s3_bucket self) (os_path_join (primary_s3_root self) batch_name)
  | ResolvedSecondary =>
      json_keys (s3_bucket self) (os_path_join (secondary_s3_root self) batch_name)
  | NotFound => []
  end.

(** ** Batch resolution by the prefixes written out

    The two prefixes of the specification as strings: the root, the
    separator and the batch name, closed by one separator when the
    name does not already end in it; an object is under a root's
    prefix when its key starts with it. *)

Fixpoint ends_in_separator (s : string) : bool :=
  match s with
  | EmptyString => false
  | String a rest =>
      match rest with
      | EmptyString => Ascii.eqb a "/"
      | String _ _ => ends_in_separator rest
      end
  end.

Definition batch_prefix (root batchName : string) : string :=
  let dir := (root ++ "/" ++ batchName)%string in
  if ends_in_separator dir then dir else (dir ++ "/")%string.

Definition has_object_under (b : bucket) (root batchName : string) : bool :=
  existsb (fun o => String.prefix (batch_prefix root batchName) (key o)) b.

Definition resolve_by_roots (b : bucket) (batchName primaryRoot secondaryRoot : string)
  : resolution :=
  if has_object_under b primaryRoot batchName then ResolvedPrimary
  else if has_object_under b secondaryRoot batchName then ResolvedSecondary
  else NotFound.


(** The exceptions reported as the failure of a file, in order. *)
Fixpoint failures (t : list event) : list exn :=
  match t with
  | [] => []
  | Log ERROR (FailedInsert _ e) :: rest => e :: failures rest
  | _ :: rest => failures rest
  end.

(** Batch [S] under the secondary root only. *)
Definition fallback_bucket : bucket := [ object "alt/S/a.json" (cutout "s1") ].

Definition fallback_loader : MongoDBDataLoader := new_loader fallback_bucket (config ["S"]).

(** Objects under the secondary root for the batch name [/B1], with the
    separators written out and with the doubled one collapsed. *)
Definition absolute_bucket : bucket :=
  [ object "alt//B1/a.json" (cutout "x1");
    object "alt/B1/b.json" (cutout "x2") ].

Definition absolute_loader : MongoDBDataLoader := new_loader absolute_bucket (config ["/B1"]).



(** * Properties *)

(** ** Equality of decoded values *)

Lemma json_eqb_eq : forall a b, json_eqb a b = true <-> a = b.
Proof.
  induction a as [ | x | x | x | xs IH | xs IH ] using json_ind;
    destruct b as [ | y | y | y | ys | ys ]; simpl;
    try (split; intro; congruence).
  - rewrite Bool.eqb_true_iff. split; congruence.
  - rewrite Z.eqb_eq. split; congruence.
  - rewrite String.eqb_eq. split; congruence.
  - revert ys. induction IH as [ | x r Hx _ IHr ]; intros [ | y ys ];
      try (split; intro; congruence).
    rewrite Bool.andb_true_iff, Hx. specialize (IHr ys).
    split.
    + intros [-> H]. apply IHr in H. congruence.
    + intros H. injection H as -> ->. split; [ reflexivity | ].
      apply IHr. reflexivity.
  - revert ys. induction IH as [ | [k x] r Hx _ IHr ]; intros [ | [k' y] ys ];
      try (split; intro; congruence).
    simpl in Hx.
    rewrite !Bool.andb_true_iff, Hx, String.eqb_eq. specialize (IHr ys).
    split.
    + intros [[-> ->] H]. apply IHr in H. congruence.
    + intros H. injection H as -> -> ->. repeat split.
      apply IHr. reflexivity.
Qed.

Lemma option_json_eqb_eq : forall a b, option_json_eqb a b = true <-> a = b.
Proof.
  intros [a | ] [b | ]; simpl; try (split; intro; congruence).
  rewrite json_eqb_eq. split; congruence.
Qed.

Lemma id_taken_In : forall c d,
  id_taken c d = true <-> In (identifier d) (map identifier (docs c)).
Proof.
  intros c d. unfold id_taken. rewrite existsb_exists, in_map_iff.
  split; intros [d' H]; exists d'.
  - destruct H as [Hin H]. apply option_json_eqb_eq in H. split; assumption.
  - destruct H as [H Hin]. split; [ assumption | ]. apply option_json_eqb_eq. assumption.
Qed.

Lemma has_index_add_index : forall c f, has_index (add_index c f) f = true.
Proof.
  intros c f. unfold add_index. destruct (has_index c f) eqn:E; [ assumption | ].
  unfold has_index. simpl. rewrite String.eqb_refl. reflexivity.
Qed.

Lemma docs_add_index : forall c f, docs (add_index c f) = docs c.
Proof. intros c f. unfold add_index. destruct (has_index c f); reflexivity. Qed.

Lemma add_index_present : forall c f, has_index c f = true -> add_index c f = c.
Proof. intros c f H. unfold add_index. rewrite H. reflexivity. Qed.

(** ** Runs of computations *)

Lemma run_eta {A} (r : outcome A * collection * list event) :
  r = (result_of r, collection_of r, trace_of r).
Proof. destruct r as [[o c] t]. reflexivity. Qed.

Lemma bind_returns {A B} (m : M A) (f : A -> M B) c a :
  result_of (m c) = Return a ->
  bind m f c =
    (result_of (f a (collection_of (m c))),
     collection_of (f a (collection_of (m c))),
     trace_of (m c) ++ trace_of (f a (collection_of (m c)))).
Proof.
  unfold bind. destruct (m c) as [[o c1] t1]. simpl. intros ->.
  destruct (f a c1) as [[r c2] t2]. reflexivity.
Qed.

Lemma bind_raises {A B} (m : M A) (f : A -> M B) c e :
  result_of (m c) = Raise e ->
  bind m f c = (Raise e, collection_of (m c), trace_of (m c)).
Proof.
  unfold bind. destruct (m c) as [[o c1] t1]. simpl. intros ->. reflexivity.
Qed.

Lemma for_cons_returns {X} (f : X -> M unit) x xs c :
  result_of (f x c) = Return tt ->
  for_ (x :: xs) f c =
    (result_of (for_ xs f (collection_of (f x c))),
     collection_of (for_ xs f (collection_of (f x c))),
     trace_of (f x c) ++ trace_of (for_ xs f (collection_of (f x c)))).
Proof. intros H. simpl. rewrite (bind_returns _ _ _ tt H). reflexivity. Qed.

Lemma for_cons_raises {X} (f : X -> M unit) x xs c e :
  result_of (f x c) = Raise e ->
  for_ (x :: xs) f c = (Raise e, collection_of (f x c), trace_of (f x c)).
Proof. intros H. simpl. rewrite (bind_raises _ _ _ e H). reflexivity. Qed.

(** A loop whose body never raises runs to its end. *)
Lemma for_never_raises {X} (f : X -> M unit) :
  (forall x c, result_of (f x c) = Return tt) ->
  forall xs c, result_of (for_ xs f c) = Return tt.
Proof.
  intros Hf xs. induction xs as [ | x xs IH ]; intros c.
  - reflexivity.
  - rewrite (for_cons_returns _ _ _ _ (Hf x c)). apply IH.
Qed.

Lemma for_app_returns {X} (f : X -> M unit) :
  (forall x c, result_of (f x c) = Return tt) ->
  forall xs ys c,
    for_ (xs ++ ys) f c =
      (Return tt,
       collection_of (for_ ys f (collection_of (for_ xs f c))),
       trace_of (for_ xs f c) ++ trace_of (for_ ys f (collection_of (for_ xs f c)))).
Proof.
  intros Hf xs. induction xs as [ | x xs IH ]; intros ys c.
  - simpl. rewrite (run_eta (for_ ys f c)) at 1.
    rewrite (for_never_raises f Hf). reflexivity.
  - rewrite <- app_comm_cons.
    rewrite !(for_cons_returns _ _ _ _ (Hf x c)).
    rewrite IH. unfold collection_of, trace_of, result_of. simpl.
    rewrite app_assoc. reflexivity.
Qed.

Lemma attempts_app : forall t1 t2, attempts (t1 ++ t2) = attempts t1 ++ attempts t2.
Proof.
  induction t1 as [ | e t1 IH ]; intros t2; [ reflexivity | ].
  destruct e; simpl; rewrite IH; reflexivity.
Qed.

Lemma verdicts_app : forall t1 t2, verdicts (t1 ++ t2) = verdicts t1 ++ verdicts t2.
Proof.
  induction t1 as [ | e t1 IH ]; intros t2; [ reflexivity | ].
  destruct e; simpl; rewrite IH; reflexivity.
Qed.

Lemma inserted_app : forall t1 t2, inserted (t1 ++ t2) = inserted t1 ++ inserted t2.
Proof.
  induction t1 as [ | e t1 IH ]; intros t2; [ reflexivity | ].
  destruct e as [ | | | | d [ | | ] | ]; simpl; rewrite IH; reflexivity.
Qed.


Lemma attempts_verdicts_length : forall t, length (attempts t) = length (verdicts t).
Proof.
  induction t as [ | e t IH ]; [ reflexivity | ].
  destruct e; simpl; rewrite ?IH; reflexivity.
Qed.

(** *** Relations every step keeps *)

Section Stable.
Variable R : collection -> collection -> Prop.
Hypothesis R_refl : forall c, R c c.
Hypothesis R_trans : forall c1 c2 c3, R c1 c2 -> R c2 c3 -> R c1 c3.

Lemma stable_ret {A} (a : A) : stable R (ret a).
Proof. intros c. apply R_refl. Qed.

Lemma stable_raise {A} (e : exn) : stable R (@raise A e).
Proof. intros c. apply R_refl. Qed.

Lemma stable_emit (e : event) : stable R (emit e).
Proof. intros c. apply R_refl. Qed.

Lemma stable_bind {A B} (m : M A) (f : A -> M B) :
  stable R m -> (forall a, stable R (f a)) -> stable R (bind m f).
Proof.
  intros Hm Hf c. specialize (Hm c). unfold bind.
  destruct (m c) as [[[a | e] c1] t1]; simpl in *; [ | assumption ].
  specialize (Hf a c1). destruct (f a c1) as [[r c2] t2]. simpl in *.
  eapply R_trans; eassumption.
Qed.

Lemma stable_try_except {A} (m : M A) handles h :
  stable R m -> (forall e, stable R (h e)) -> stable R (try_except m handles h).
Proof.
  intros Hm Hh c. specialize (Hm c). unfold try_except.
  destruct (m c) as [[[a | e] c1] t1]; simpl in *; [ assumption | ].
  destruct (handles e); [ | assumption ].
  specialize (Hh e c1). destruct (h e c1) as [[r c2] t2]. simpl in *.
  eapply R_trans; eassumption.
Qed.

Lemma stable_for {X} (f : X -> M unit) xs :
  (forall x, stable R (f x)) -> stable R (for_ xs f).
Proof.
  intros Hf. induction xs as [ | x xs IH ].
  - apply stable_ret.
  - simpl. apply stable_bind; [ apply Hf | intros _; exact IH ].
Qed.
End Stable.

(** *** Properties of every emitted event *)

Section Emits.
Variable P : event -> Prop.

Lemma emits_ret {A} (a : A) : emits_only P (ret a).
Proof. intros c. constructor. Qed.

Lemma emits_raise {A} (e : exn) : emits_only P (@raise A e).
Proof. intros c. constructor. Qed.

Lemma emits_emit (e : event) : P e -> emits_only P (emit e).
Proof. intros H c. repeat constructor. assumption. Qed.

Lemma emits_bind {A B} (m : M A) (f : A -> M B) :
  emits_only P m -> (forall a, emits_only P (f a)) -> emits_only P (bind m f).
Proof.
  intros Hm Hf c. specialize (Hm c). unfold bind.
  destruct (m c) as [[[a | e] c1] t1]; simpl in *; [ | assumption ].
  specialize (Hf a c1). destruct (f a c1) as [[r c2] t2]. simpl in *.
  apply Forall_app. split; assumption.
Qed.

Lemma emits_try_except {A} (m : M A) handles h :
  emits_only P m -> (forall e, emits_only P (h e)) -> emits_only P (try_except m handles h).
Proof.
  intros Hm Hh c. specialize (Hm c). unfold try_except.
  destruct (m c) as [[[a | e] c1] t1]; simpl in *; [ assumption | ].
  destruct (handles e); [ | assumption ].
  specialize (Hh e c1). destruct (h e c1) as [[r c2] t2]. simpl in *.
  apply Forall_app. split; assumption.
Qed.

Lemma emits_for {X} (f : X -> M unit) xs :
  (forall x, emits_only P (f x)) -> emits_only P (for_ xs f).
Proof.
  intros Hf. induction xs as [ | x xs IH ].
  - apply emits_ret.
  - simpl. apply emits_bind; [ apply Hf | intros _; exact IH ].
Qed.
End Emits.

(** ** Runs of the loader's methods *)

Section LoaderRuns.
Variable create_index : collection -> string -> bool.
Variable insert_one : collection -> json -> insert_result.

(** What one guarded [insert_one] does, by the store's answer. *)
Lemma insert_item_run item c :
  insert_item insert_one item c =
    match insert_one c item with
    | InsertOk => (Return tt, add_doc c item, [InsertOne item InsertOk])
    | DuplicateKey =>
        match item with
        | JObj fields =>
            (Return tt, c,
             [InsertOne item DuplicateKey;
              Log WARNING (DuplicateSkipped (dict_get fields cutout_id (JStr "unknown"))
                                            DuplicateKeyError)])
        | _ => (Raise AttributeError, c, [InsertOne item DuplicateKey])
        end
    | OtherError => (Raise StoreWriteError, c, [InsertOne item OtherError])
    end.
Proof.
  unfold insert_item, try_except, collection_insert_one.
  destruct (insert_one c item); try reflexivity.
  destruct item; reflexivity.
Qed.

Lemma insert_item_raises item c e :
  result_of (insert_item insert_one item c) = Raise e -> is_Exception e = true.
Proof.
  rewrite insert_item_run.
  destruct (insert_one c item); [ | destruct item | ]; simpl; intros H;
    try discriminate; injection H as <-; reflexivity.
Qed.

Lemma insert_items_raise items c e :
  result_of (for_ items (insert_item insert_one) c) = Raise e -> is_Exception e = true.
Proof.
  revert c. induction items as [ | x items IH ]; intros c; [ discriminate | ].
  destruct (result_of (insert_item insert_one x c)) as [[] | e'] eqn:E.
  - rewrite (for_cons_returns _ _ _ _ E). simpl. apply IH.
  - rewrite (for_cons_raises _ _ _ _ _ E). simpl. intros H. injection H as <-.
    apply (insert_item_raises _ _ _ E).
Qed.

Lemma insert_data_raises data c e :
  result_of (insert_data insert_one data c) = Raise e -> is_Exception e = true.
Proof.
  destruct data; simpl; try apply insert_item_raises. apply insert_items_raise.
Qed.

Lemma fetch_json_run self k c :
  fetch_json self k c =
    (match object_get (s3_bucket self) k with
     | None => Raise NoSuchKey
     | Some o =>
         match content o with
         | Undecodable => Raise DecodeError
         | Json v => Return v
         end
     end, c, [S3Get k]).
Proof.
  unfold fetch_json, bind, emit.
  destruct (object_get (s3_bucket self) k) as [o | ]; [ | reflexivity ].
  destruct (content o); reflexivity.
Qed.

(** What [insert_data_from_file] does, by what the object holds. *)
Lemma insert_data_from_file_run self k c :
  insert_data_from_file insert_one self k c =
    match object_get (s3_bucket self) k with
    | None => (Return tt, c, [S3Get k; Log ERROR (FailedInsert k NoSuchKey)])
    | Some o =>
        match content o with
        | Undecodable => (Return tt, c, [S3Get k; Log ERROR (FailedInsert k DecodeError)])
        | Json data =>
            let r := insert_data insert_one data c in
            (Return tt, collection_of r,
             S3Get k :: trace_of r ++
               match result_of r with
               | Return _ => []
               | Raise e => [Log ERROR (FailedInsert k e)]
               end)
        end
    end.
Proof.
  unfold insert_data_from_file, try_except, bind at 1.
  rewrite fetch_json_run.
  destruct (object_get (s3_bucket self) k) as [o | ]; [ | reflexivity ].
  destruct (content o) as [ | data ]; [ reflexivity | ].
  pose proof (insert_data_raises data c) as Hexc.
  destruct (insert_data insert_one data c) as [[[[] | e] c1] t1]; simpl in *.
  - rewrite app_nil_r. reflexivity.
  - rewrite (Hexc e eq_refl). reflexivity.
Qed.

(** No exception leaves [insert_data_from_file]. *)
Lemma insert_data_from_file_returns self k c :
  result_of (insert_data_from_file insert_one self k c) = Return tt.
Proof.
  rewrite insert_data_from_file_run.
  destruct (object_get (s3_bucket self) k) as [o | ]; [ | reflexivity ].
  destruct (content o); reflexivity.
Qed.

Lemma insert_files_returns self ks c :
  result_of (for_ ks (insert_data_from_file insert_one self) c) = Return tt.
Proof. apply for_never_raises. apply insert_data_from_file_returns. Qed.

Lemma insert_files_cons self k ks c :
  for_ (k :: ks) (insert_data_from_file insert_one self) c =
    let r1 := insert_data_from_file insert_one self k c in
    let r := for_ ks (insert_data_from_file insert_one self) (collection_of r1) in
    (Return tt, collection_of r, trace_of r1 ++ trace_of r).
Proof.
  rewrite (for_cons_returns _ _ _ _ (insert_data_from_file_returns self k c)).
  rewrite insert_files_returns. reflexivity.
Qed.

(** Every key of the loop over [json_files] is fetched. *)
Lemma insert_files_fetch_all self ks c k :
  In k ks -> In (S3Get k) (trace_of (for_ ks (insert_data_from_file insert_one self) c)).
Proof.
  revert c. induction ks as [ | k' ks IH ]; intros c; [ intros [] | ].
  intros Hin. rewrite insert_files_cons. simpl. apply in_or_app.
  destruct Hin as [-> | Hin].
  - left. rewrite insert_data_from_file_run.
    destruct (object_get (s3_bucket self) k) as [o | ]; [ | left; reflexivity ].
    destruct (content o); left; reflexivity.
  - right. apply IH. assumption.
Qed.

End LoaderRuns.

(** ** Batch resolution *)

(** A probed prefix always ends in the separator. *)
Lemma substring_last_char s a :
  substring (String.length s) 1 (s ++ String a "")%string = String a "".
Proof. induction s as [ | b s IH ]; [ reflexivity | exact IH ]. Qed.

Lemma length_append_char s a :
  String.length (s ++ String a "")%string = S (String.length s).
Proof. induction s as [ | b s IH ]; [ reflexivity | simpl; rewrite IH; reflexivity ]. Qed.

Lemma folder_prefix_endswith dir : endswith (folder_prefix dir) "/" = true.
Proof.
  unfold folder_prefix. destruct (endswith dir "/") eqn:E; [ exact E | ].
  simpl. unfold endswith. rewrite length_append_char. simpl.
  rewrite Nat.sub_0_r, substring_last_char. reflexivity.
Qed.

(** For a batch name that is relative and a root that [Path] has
    normalised, [os.path.join] is the root, the separator and the name. *)
Lemma os_path_join_plain root name :
  startswith name "/" = false -> root <> "" -> endswith root "/" = false ->
  os_path_join root name = (root ++ "/" ++ name)%string.
Proof.
  intros Hn Hr He. unfold os_path_join. rewrite Hn, He.
  destruct (String.eqb_spec root ""); [ contradiction | reflexivity ].
Qed.

Lemma folder_hit_existsb b p :
  folder_hit b p = existsb (fun o => startswith (key o) p) b.
Proof.
  unfold folder_hit, objects_filter.
  induction b as [ | o b IH ]; [ reflexivity | ].
  simpl. destruct (startswith (key o) p); [ reflexivity | exact IH ].
Qed.

Section BatchRuns.
Variable create_index : collection -> string -> bool.
Variable insert_one : collection -> json -> insert_result.

Lemma s3_folder_exists_run self dir c :
  s3_folder_exists self dir c =
    (Return (exists_under (s3_bucket self) dir), c,
     [S3Probe (folder_prefix dir) (exists_under (s3_bucket self) dir)]).
Proof.
  unfold s3_folder_exists, bind, emit, ret, exists_under.
  rewrite folder_hit_existsb. reflexivity.
Qed.

Lemma load_batch_run self batch_name c :
  let primary := os_path_join (primary_s3_root self) batch_name in
  let secondary := os_path_join (secondary_s3_root self) batch_name in
  load_batch insert_one self batch_name c =
    match resolve (s3_bucket self) batch_name (primary_s3_root self) (secondary_s3_root self) with
    | ResolvedPrimary =>
        (Return tt, collection_of (batch_files insert_one self primary c),
         S3Probe (folder_prefix primary) true ::
         S3List primary ::
         Log INFO (ProcessingPrimary batch_name
                     (length (json_keys (s3_bucket self) primary))) ::
         trace_of (batch_files insert_one self primary c))
    | ResolvedSecondary =>
        (Return tt, collection_of (batch_files insert_one self secondary c),
         S3Probe (folder_prefix primary) false ::
         S3Probe (folder_prefix secondary) true ::
         S3List secondary ::
         Log INFO (ProcessingAlternative secondary
                     (length (json_keys (s3_bucket self) secondary))) ::
         trace_of (batch_files insert_one self secondary c))
    | NotFound =>
        (Return tt, c,
         [S3Probe (folder_prefix primary) false;
          S3Probe (folder_prefix secondary) false;
          Log WARNING (BatchNotFound secondary)])
    end.
Proof.
  intros primary secondary. unfold load_batch, resolve, batch_files.
  fold primary secondary.
  unfold bind at 1. rewrite s3_folder_exists_run.
  destruct (exists_under (s3_bucket self) primary).
  - unfold list_json_files, log, emit, ret, bind.
    pose proof (insert_files_returns insert_one self (json_keys (s3_bucket self) primary) c) as H.
    destruct (for_ _ _ c) as [[r c1] t1]. simpl in *. subst r. reflexivity.
  - unfold bind at 1. rewrite s3_folder_exists_run.
    destruct (exists_under (s3_bucket self) secondary).
    + unfold list_json_files, log, emit, ret, bind.
      pose proof (insert_files_returns insert_one self (json_keys (s3_bucket self) secondary) c) as H.
      destruct (for_ _ _ c) as [[r c1] t1]. simpl in *. subst r. reflexivity.
    + reflexivity.
Qed.

Lemma load_batch_returns self batch_name c :
  result_of (load_batch insert_one self batch_name c) = Return tt.
Proof.
  rewrite load_batch_run.
  destruct (resolve _ _ _ _); reflexivity.
Qed.

Lemma load_batches_cons self batch_name rest c :
  load_json_files_from_batches insert_one self (batch_name :: rest) c =
    let r1 := load_batch insert_one self batch_name c in
    let r := load_json_files_from_batches insert_one self rest (collection_of r1) in
    (Return tt, collection_of r, trace_of r1 ++ trace_of r).
Proof.
  unfold load_json_files_from_batches.
  rewrite (for_cons_returns _ _ _ _ (load_batch_returns self batch_name c)).
  rewrite (for_never_raises _ (load_batch_returns self)). reflexivity.
Qed.

Lemma load_batches_returns self names c :
  result_of (load_json_files_from_batches insert_one self names c) = Return tt.
Proof. apply for_never_raises. apply load_batch_returns. Qed.

(** *** Which calls each method makes *)

Lemma insert_item_emits (P : event -> Prop) item :
  (forall d r, P (InsertOne d r)) -> (forall l m, P (Log l m)) ->
  emits_only P (insert_item insert_one item).
Proof.
  intros Hi Hl c. rewrite insert_item_run.
  destruct (insert_one c item); [ | destruct item | ]; simpl;
    repeat constructor; auto.
Qed.

Lemma insert_data_from_file_emits (P : event -> Prop) self k :
  (forall d r, P (InsertOne d r)) -> (forall l m, P (Log l m)) -> (forall k', P (S3Get k')) ->
  emits_only P (insert_data_from_file insert_one self k).
Proof.
  intros Hi Hl Hg. unfold insert_data_from_file.
  apply emits_try_except.
  - apply emits_bind.
    + unfold fetch_json. apply emits_bind; [ apply emits_emit, Hg | intros _ ].
      destruct (object_get (s3_bucket self) k) as [o | ]; [ | apply emits_raise ].
      destruct (content o); [ apply emits_raise | apply emits_ret ].
    + intros data. destruct data; simpl; try (apply insert_item_emits; assumption).
      apply emits_for. intros x. apply insert_item_emits; assumption.
  - intros e. apply emits_emit, Hl.
Qed.

Lemma batch_files_emit (P : event -> Prop) self dir :
  (forall d r, P (InsertOne d r)) -> (forall l m, P (Log l m)) -> (forall k', P (S3Get k')) ->
  emits_only P (batch_files insert_one self dir).
Proof.
  intros Hi Hl Hg. apply emits_for. intros k.
  apply insert_data_from_file_emits; assumption.
Qed.

Lemma load_batches_emit (P : event -> Prop) self names :
  (forall d r, P (InsertOne d r)) -> (forall l m, P (Log l m)) -> (forall k', P (S3Get k')) ->
  (forall p h, P (S3Probe p h)) -> (forall p, P (S3List p)) ->
  emits_only P (load_json_files_from_batches insert_one self names).
Proof.
  intros Hi Hl Hg Hp Hls. apply emits_for. intros name c.
  rewrite load_batch_run.
  destruct (resolve _ _ _ _); simpl; repeat (constructor; auto);
    apply batch_files_emit; assumption.
Qed.

(** *** The prefixes written out *)

Lemma endswith_ends_in_separator s : endswith s "/" = ends_in_separator s.
Proof.
  induction s as [ | a r IH ]; [ reflexivity | ].
  destruct r as [ | b r' ].
  - unfold endswith. simpl. destruct (Ascii.eqb a "/"); reflexivity.
  - change (ends_in_separator (String a (String b r')))
      with (ends_in_separator (String b r')).
    rewrite <- IH. unfold endswith. simpl. rewrite Nat.sub_0_r. reflexivity.
Qed.

Lemma ends_in_separator_app a b :
  b <> "" -> ends_in_separator (a ++ b)%string = ends_in_separator b.
Proof.
  intros Hb. induction a as [ | x a IH ]; [ reflexivity | ].
  simpl. destruct (a ++ b)%string eqn:E; [ | exact IH ].
  destruct a; [ simpl in E; contradiction | discriminate ].
Qed.

Lemma folder_prefix_batch_prefix root name :
  folder_prefix (root ++ "/" ++ name)%string = batch_prefix root name.
Proof.
  unfold folder_prefix, batch_prefix. rewrite endswith_ends_in_separator.
  destruct (ends_in_separator (root ++ "/" ++ name)%string); reflexivity.
Qed.

Lemma exists_under_has_object_under b root name :
  exists_under b (root ++ "/" ++ name)%string = has_object_under b root name.
Proof.
  unfold exists_under, has_object_under, startswith.
  rewrite folder_prefix_batch_prefix. reflexivity.
Qed.

(** For a relative batch name and roots as [Path] leaves them, the
    resolution the code computes is the resolution by the prefixes
    written out. *)
Lemma resolve_resolve_by_roots b name proot sroot :
  startswith name "/" = false ->
  proot <> "" -> endswith proot "/" = false ->
  sroot <> "" -> endswith sroot "/" = false ->
  resolve b name proot sroot = resolve_by_roots b name proot sroot.
Proof.
  intros Hn Hp Hpe Hs Hse. unfold resolve, resolve_by_roots.
  rewrite (os_path_join_plain proot name Hn Hp Hpe).
  rewrite (os_path_join_plain sroot name Hn Hs Hse).
  rewrite !exists_under_has_object_under. reflexivity.
Qed.

(** C4, as the code has it: for a batch name that does not begin with
    the separator, the roots being non-empty and without trailing
    separator, batch resolution is the two-tier fallback over the
    prefixes [primaryRoot/batchName/] and [secondaryRoot/batchName/]:
    the primary prefix is probed first; on a hit the batch is read from
    the primary directory and the secondary root is never probed;
    otherwise the secondary prefix is probed and, on a hit, the batch
    is read from the secondary directory; with no hit under either
    root a warning is logged, no object is touched and the collection
    is as it was; the loop then goes on with the next batch name. *)
Theorem two_tier_resolution_of_relative_names self batch_name c :
  startswith batch_name "/" = false ->
  primary_s3_root self <> "" -> endswith (primary_s3_root self) "/" = false ->
  secondary_s3_root self <> "" -> endswith (secondary_s3_root self) "/" = false ->
  let primary := (primary_s3_root self ++ "/" ++ batch_name)%string in
  let secondary := (secondary_s3_root self ++ "/" ++ batch_name)%string in
  load_batch insert_one self batch_name c =
    match resolve_by_roots (s3_bucket self) batch_name
            (primary_s3_root self) (secondary_s3_root self) with
    | ResolvedPrimary =>
        (Return tt, collection_of (batch_files insert_one self primary c),
         S3Probe (batch_prefix (primary_s3_root self) batch_name) true ::
         S3List primary ::
         Log INFO (ProcessingPrimary batch_name
                     (length (json_keys (s3_bucket self) primary))) ::
         trace_of (batch_files insert_one self primary c))
    | ResolvedSecondary =>
        (Return tt, collection_of (batch_files insert_one self secondary c),
         S3Probe (batch_prefix (primary_s3_root self) batch_name) false ::
         S3Probe (batch_prefix (secondary_s3_root self) batch_name) true ::
         S3List secondary ::
         Log INFO (ProcessingAlternative secondary
                     (length (json_keys (s3_bucket self) secondary))) ::
         trace_of (batch_files insert_one self secondary c))
    | NotFound =>
        (Return tt, c,
         [S3Probe (batch_prefix (primary_s3_root self) batch_name) false;
          S3Probe (batch_prefix (secondary_s3_root self) batch_name) false;
          Log WARNING (BatchNotFound secondary)])
    end
  /\ (batch_name <> "" -> ends_in_separator batch_name = false ->
      batch_prefix (primary_s3_root self) batch_name = (primary ++ "/")%string
      /\ batch_prefix (secondary_s3_root self) batch_name = (secondary ++ "/")%string)
  /\ Forall (fun e => is_probe e = false) (trace_of (batch_files insert_one self primary c))
  /\ Forall (fun e => is_probe e = false) (trace_of (batch_files insert_one self secondary c))
  /\ forall rest,
       load_json_files_from_batches insert_one self (batch_name :: rest) c =
         let r1 := load_batch insert_one self batch_name c in
         let r := load_json_files_from_batches insert_one self rest (collection_of r1) in
         (Return tt, collection_of r, trace_of r1 ++ trace_of r).
Proof.
  intros Hn Hp Hpe Hs Hse primary secondary.
  split; [ | split; [ | split; [ | split ] ] ].
  - rewrite load_batch_run.
    rewrite (resolve_resolve_by_roots _ _ _ _ Hn Hp Hpe Hs Hse).
    rewrite (os_path_join_plain _ _ Hn Hp Hpe), (os_path_join_plain _ _ Hn Hs Hse).
    fold primary secondary.
    unfold primary, secondary. rewrite !folder_prefix_batch_prefix. reflexivity.
  - intros Hne Hsep.
    assert (Hb : forall root, batch_prefix root batch_name
                              = ((root ++ "/" ++ batch_name) ++ "/")%string).
    { intros root. unfold batch_prefix.
      change (root ++ "/" ++ batch_name)%string
        with (root ++ String "/" batch_name)%string.
      rewrite ends_in_separator_app by discriminate.
      destruct batch_name as [ | x name ]; [ contradiction | ].
      change (ends_in_separator (String "/" (String x name)))
        with (ends_in_separator (String x name)).
      rewrite Hsep. reflexivity. }
    split; apply Hb.
  - apply (batch_files_emit (fun e => is_probe e = false)); reflexivity.
  - apply (batch_files_emit (fun e => is_probe e = false)); reflexivity.
  - intros rest. apply load_batches_cons.
Qed.

End BatchRuns.

(** ** What ingestion keeps

    Whatever relation between collections is reflexive, transitive and
    kept by a successful insert is kept by every method that ingests. *)

Section Preservation.
Variable insert_one : collection -> json -> insert_result.
Variable R : collection -> collection -> Prop.
Hypothesis R_refl : forall c, R c c.
Hypothesis R_trans : forall c1 c2 c3, R c1 c2 -> R c2 c3 -> R c1 c3.
Hypothesis R_insert : forall c d, insert_one c d = InsertOk -> R c (add_doc c d).

Lemma insert_item_stable item : stable R (insert_item insert_one item).
Proof.
  intros c. rewrite insert_item_run.
  destruct (insert_one c item) eqn:E; [ | destruct item | ]; simpl; auto.
Qed.

Lemma insert_data_from_file_stable self k :
  stable R (insert_data_from_file insert_one self k).
Proof.
  unfold insert_data_from_file.
  apply (stable_try_except R R_trans).
  - apply (stable_bind R R_trans).
    + unfold fetch_json. apply (stable_bind R R_trans).
      * apply (stable_emit R R_refl).
      * intros _. destruct (object_get (s3_bucket self) k) as [o | ];
          [ | apply (stable_raise R R_refl) ].
        destruct (content o); [ apply (stable_raise R R_refl) | apply (stable_ret R R_refl) ].
    + intros data. destruct data; simpl; try apply insert_item_stable.
      apply (stable_for R R_refl R_trans). apply insert_item_stable.
  - intros e. apply (stable_emit R R_refl).
Qed.

Lemma batch_files_stable self dir : stable R (batch_files insert_one self dir).
Proof. apply (stable_for R R_refl R_trans). apply insert_data_from_file_stable. Qed.

Lemma load_batch_stable self batch_name : stable R (load_batch insert_one self batch_name).
Proof.
  intros c. rewrite load_batch_run.
  destruct (resolve _ _ _ _); simpl; auto; apply batch_files_stable.
Qed.

Lemma load_batches_stable self names :
  stable R (load_json_files_from_batches insert_one self names).
Proof. apply (stable_for R R_refl R_trans). apply load_batch_stable. Qed.
End Preservation.

(** Ingestion only appends documents and leaves the indexes alone. *)
Lemma extends_refl c : extends c c.
Proof. split; [ reflexivity | ]. exists []. rewrite app_nil_r. reflexivity. Qed.

Lemma extends_trans c1 c2 c3 : extends c1 c2 -> extends c2 c3 -> extends c1 c3.
Proof.
  intros [Hi1 [n1 Hd1]] [Hi2 [n2 Hd2]]. split; [ congruence | ].
  exists (n1 ++ n2). rewrite Hd2, Hd1, app_assoc. reflexivity.
Qed.

Lemma extends_add_doc c d : extends c (add_doc c d).
Proof. split; [ reflexivity | ]. exists [d]. reflexivity. Qed.

Lemma extends_has_index c c' f : extends c c' -> has_index c' f = has_index c f.
Proof. intros [Hi _]. unfold has_index. rewrite Hi. reflexivity. Qed.

Lemma load_batches_extends insert_one self names c :
  extends c (collection_of (load_json_files_from_batches insert_one self names c)).
Proof.
  apply (load_batches_stable insert_one extends extends_refl extends_trans).
  intros c0 d _. apply extends_add_doc.
Qed.

(** ** The whole run *)

Section MainRuns.
Variable create_index : collection -> string -> bool.
Variable insert_one : collection -> json -> insert_result.

Lemma create_id_index_run c :
  create_id_index create_index "cutouts" c =
    if create_index c cutout_id
    then (Return tt, add_index c cutout_id,
          [CreateIndex cutout_id true; Log INFO (IndexCreated cutout_id)])
    else (Raise SystemExit, c,
          [CreateIndex cutout_id false; Log ERROR (IndexFailed cutout_id IndexBuildError)]).
Proof.
  unfold create_id_index, try_except, bind, collection_create_index. simpl.
  destruct (create_index c cutout_id); reflexivity.
Qed.

Lemma main_run s3 cfg c :
  main create_index insert_one s3 cfg c =
    if create_index c cutout_id
    then
      let r := load_json_files_from_batches insert_one (new_loader s3 cfg) (batches cfg)
                 (add_index c cutout_id) in
      (Return tt, collection_of r,
       CreateIndex cutout_id true :: Log INFO (IndexCreated cutout_id) ::
       Log INFO (LoadedBatches (length (batches cfg))) :: trace_of r)
    else (Raise SystemExit, c,
          [CreateIndex cutout_id false; Log ERROR (IndexFailed cutout_id IndexBuildError)]).
Proof.
  unfold main, init. unfold bind at 1. unfold bind at 1.
  rewrite create_id_index_run.
  destruct (create_index c cutout_id); [ | reflexivity ].
  unfold load_batches_from_yaml, log, emit, ret, bind. simpl.
  pose proof (load_batches_returns insert_one (new_loader s3 cfg) (batches cfg)
                (add_index c cutout_id)) as H.
  destruct (load_json_files_from_batches _ _ _ _) as [[r c1] t1].
  simpl in *. subst r. reflexivity.
Qed.

(** C9: the unique index on [cutout_id] is requested first and once:
    when its creation succeeds the run's first call is that creation
    and no later call creates an index, so every probe, fetch and
    insert comes after it and finds the index in place; when its
    creation fails the process exits with nothing but the failed
    creation and its log record behind it, the collection untouched.
    Either way an insert attempt has the successful creation of the
    index before it. *)
Theorem index_creation_precedes_ingestion s3 cfg c :
  let run := main create_index insert_one s3 cfg c in
  (if create_index c cutout_id
   then
     exists t,
       trace_of run = CreateIndex cutout_id true :: t
       /\ Forall (fun e => is_create_index e = false) t
       /\ result_of run = Return tt
       /\ has_index (collection_of run) cutout_id = true
   else
     run = (Raise SystemExit, c,
            [CreateIndex cutout_id false; Log ERROR (IndexFailed cutout_id IndexBuildError)]))
  /\ forall t1 d r t2,
       trace_of run = t1 ++ InsertOne d r :: t2 -> In (CreateIndex cutout_id true) t1.
Proof.
  intros run. unfold run. rewrite main_run.
  destruct (create_index c cutout_id); split.
  - eexists. split; [ reflexivity | ]. split; [ | split ].
    + repeat (constructor; [ reflexivity | ]).
      apply (load_batches_emit insert_one (fun e => is_create_index e = false)); reflexivity.
    + reflexivity.
    + simpl. rewrite (extends_has_index _ _ _ (load_batches_extends _ _ _ _)).
      apply has_index_add_index.
  - intros [ | e t1 ] d r t2; simpl; intros H; [ discriminate | ].
    injection H as <- _. left. reflexivity.
  - reflexivity.
  - intros [ | e1 [ | e2 [ | e3 t1 ] ] ] d r t2; simpl; intros H; discriminate.
Qed.

End MainRuns.

(** ** Records of one object *)

Section Records.
Variable insert_one : collection -> json -> insert_result.

(** The elements of a list are attempted in list order, one attempt
    per element, for as long as the loop runs. *)
Lemma insert_items_attempts items c :
  let t := trace_of (for_ items (insert_item insert_one) c) in
  attempts t = firstn (length (verdicts t)) items.
Proof.
  revert c. induction items as [ | x items IH ]; intros c; [ reflexivity | ].
  pose proof (insert_item_run insert_one x c) as Hx.
  destruct (result_of (insert_item insert_one x c)) as [[] | e] eqn:E.
  - rewrite (for_cons_returns _ _ _ _ E). simpl.
    rewrite attempts_app, verdicts_app, length_app.
    specialize (IH (collection_of (insert_item insert_one x c))). simpl in IH.
    rewrite Hx in *.
    destruct (insert_one c x); [ | destruct x | ]; simpl in *;
      try discriminate; rewrite IH at 1; reflexivity.
  - rewrite (for_cons_raises _ _ _ _ _ E). simpl.
    rewrite Hx in *.
    destruct (insert_one c x); [ | destruct x | ]; simpl in *;
      try discriminate; reflexivity.
Qed.

(** A loop that ran to its end attempted every element. *)
Lemma insert_items_returned items c :
  result_of (for_ items (insert_item insert_one) c) = Return tt ->
  attempts (trace_of (for_ items (insert_item insert_one) c)) = items.
Proof.
  revert c. induction items as [ | x items IH ]; intros c; [ reflexivity | ].
  pose proof (insert_item_run insert_one x c) as Hx.
  destruct (result_of (insert_item insert_one x c)) as [[] | e] eqn:E.
  - rewrite (for_cons_returns _ _ _ _ E). simpl. intros H.
    rewrite attempts_app, (IH _ H).
    rewrite Hx in *.
    destruct (insert_one c x); [ | destruct x | ]; simpl in *;
      try discriminate; reflexivity.
  - rewrite (for_cons_raises _ _ _ _ _ E). simpl. discriminate.
Qed.

(** Only a write error or a non-dict duplicate ends the loop early,
    and the verdict that ends it is the last one. *)
Lemma insert_items_verdicts items c :
  let r := for_ items (insert_item insert_one) c in
  (forall n, nth_error (verdicts (trace_of r)) n = Some OtherError ->
             S n = length (verdicts (trace_of r)))
  /\ (Forall (fun x => is_mapping x = true) items ->
      ~ In OtherError (verdicts (trace_of r)) -> result_of r = Return tt).
Proof.
  revert c. induction items as [ | x items IH ]; intros c.
  - split; [ intros [ | m ]; discriminate | reflexivity ].
  - pose proof (insert_item_run insert_one x c) as Hx.
    destruct (result_of (insert_item insert_one x c)) as [[] | e] eqn:E.
    + rewrite (for_cons_returns _ _ _ _ E). simpl.
      rewrite verdicts_app.
      destruct (IH (collection_of (insert_item insert_one x c))) as [IH1 IH2].
      simpl in IH1, IH2.
      rewrite Hx in *.
      destruct (insert_one c x); [ | destruct x | ]; simpl in *; try discriminate.
      * split.
        -- intros [ | m ]; [ discriminate | ]. simpl. intros H. f_equal. auto.
        -- intros Hm Hno. apply IH2; [ inversion Hm; assumption | ].
           intros Hin. apply Hno. right. assumption.
      * split.
        -- intros [ | m ]; [ discriminate | ]. simpl. intros H. f_equal. auto.
        -- intros Hm Hno. apply IH2; [ inversion Hm; assumption | ].
           intros Hin. apply Hno. right. assumption.
    + rewrite (for_cons_raises _ _ _ _ _ E). simpl.
      rewrite Hx in *.
      destruct (insert_one c x); [ | destruct x | ]; simpl in *; try discriminate;
        (split;
         [ intros [ | [ | m ] ]; simpl; intros H; try discriminate; reflexivity
         | intros Hm Hno; try (exfalso; apply Hno; left; reflexivity);
           inversion Hm; discriminate ]).
Qed.

(** The collection after a list is the collection before it with the
    accepted documents appended. *)
Lemma insert_items_inserted items c :
  let r := for_ items (insert_item insert_one) c in
  docs (collection_of r) = docs c ++ inserted (trace_of r)
  /\ indexes (collection_of r) = indexes c.
Proof.
  revert c. induction items as [ | x items IH ]; intros c.
  - simpl. rewrite app_nil_r. split; reflexivity.
  - pose proof (insert_item_run insert_one x c) as Hx.
    destruct (result_of (insert_item insert_one x c)) as [[] | e] eqn:E.
    + rewrite (for_cons_returns _ _ _ _ E). simpl.
      rewrite inserted_app.
      destruct (IH (collection_of (insert_item insert_one x c))) as [IH1 IH2].
      simpl in IH1, IH2. rewrite IH1, IH2.
      rewrite Hx in *.
      destruct (insert_one c x); [ | destruct x | ]; simpl in *; try discriminate;
        rewrite <- ?app_assoc; split; reflexivity.
    + rewrite (for_cons_raises _ _ _ _ _ E). simpl.
      rewrite Hx in *.
      destruct (insert_one c x); [ | destruct x | ]; simpl in *; try discriminate;
        rewrite app_nil_r; split; reflexivity.
Qed.

(** A list whose element [x] meets a write error after the elements
    before it ran through. *)
Lemma insert_items_store_error before x after c c1 t1 :
  for_ before (insert_item insert_one) c = (Return tt, c1, t1) ->
  insert_one c1 x = OtherError ->
  for_ (before ++ x :: after) (insert_item insert_one) c =
    (Raise StoreWriteError, c1, t1 ++ [InsertOne x OtherError]).
Proof.
  revert c t1. induction before as [ | y before IH ]; intros c t1 Hb Hx.
  - simpl in Hb. injection Hb as <- <-.
    change (([] ++ x :: after)) with (x :: after).
    assert (E : result_of (insert_item insert_one x c) = Raise StoreWriteError)
      by (rewrite insert_item_run, Hx; reflexivity).
    rewrite (for_cons_raises _ _ _ _ _ E).
    rewrite insert_item_run, Hx. reflexivity.
  - rewrite <- app_comm_cons.
    destruct (result_of (insert_item insert_one y c)) as [[] | e] eqn:E.
    + rewrite (for_cons_returns _ _ _ _ E) in Hb.
      rewrite (for_cons_returns _ _ _ _ E).
      injection Hb as Hr Hc Ht.
      rewrite (IH (collection_of (insert_item insert_one y c))
                  (trace_of (for_ before (insert_item insert_one)
                               (collection_of (insert_item insert_one y c))))).
      * simpl. rewrite <- Ht, app_assoc. reflexivity.
      * rewrite (run_eta (for_ before _ _)) at 1. rewrite Hr, Hc. reflexivity.
      * assumption.
    + rewrite (for_cons_raises _ _ _ _ _ E) in Hb. discriminate.
Qed.

Lemma insert_data_from_file_store_error self k o before x after c c1 t1 :
  object_get (s3_bucket self) k = Some o ->
  content o = Json (JArr (before ++ x :: after)) ->
  for_ before (insert_item insert_one) c = (Return tt, c1, t1) ->
  insert_one c1 x = OtherError ->
  insert_data_from_file insert_one self k c =
    (Return tt, c1,
     S3Get k :: t1 ++ [InsertOne x OtherError; Log ERROR (FailedInsert k StoreWriteError)]).
Proof.
  intros Ho Hc Hb Hx. rewrite insert_data_from_file_run, Ho, Hc. simpl.
  rewrite (insert_items_store_error _ _ after _ _ _ Hb Hx). simpl.
  rewrite <- app_assoc. reflexivity.
Qed.

End Records.

Section RecordClaims.
Variable insert_one : collection -> json -> insert_result.

(** C6: a record (a dict) whose insert meets a duplicate key is
    skipped: the warning carries [item.get('cutout_id', 'unknown')],
    the guarded insert returns normally with the collection as it
    was, the remaining records of the list are then processed from
    that same collection, and a loop over objects always goes on to
    the objects that follow. *)
Theorem duplicate_key_is_skipped fields c :
  insert_one c (JObj fields) = DuplicateKey ->
  let item := JObj fields in
  let skipped :=
    [InsertOne item DuplicateKey;
     Log WARNING (DuplicateSkipped (dict_get fields cutout_id (JStr "unknown"))
                                   DuplicateKeyError)] in
  insert_item insert_one item c = (Return tt, c, skipped)
  /\ (forall rest,
        for_ (item :: rest) (insert_item insert_one) c =
          let r := for_ rest (insert_item insert_one) c in
          (result_of r, collection_of r, skipped ++ trace_of r))
  /\ (forall self k ks c0,
        for_ (k :: ks) (insert_data_from_file insert_one self) c0 =
          let r1 := insert_data_from_file insert_one self k c0 in
          let r := for_ ks (insert_data_from_file insert_one self) (collection_of r1) in
          (Return tt, collection_of r, trace_of r1 ++ trace_of r)).
Proof.
  intros Hdup item skipped.
  assert (Hrun : insert_item insert_one item c = (Return tt, c, skipped))
    by (rewrite insert_item_run; unfold item; rewrite Hdup; reflexivity).
  split; [ exact Hrun | ]. split.
  - intros rest.
    assert (E : result_of (insert_item insert_one item c) = Return tt)
      by (rewrite Hrun; reflexivity).
    rewrite (for_cons_returns _ _ _ _ E), Hrun. reflexivity.
  - intros self k ks c0. apply insert_files_cons.
Qed.

(** C10: when the insert of an element of a list-valued object meets
    a store error that is not a duplicate key, after the elements
    before it ran through, the object's ingestion ends there: the
    collection is the one those earlier elements left (what they
    inserted stays), the attempts are the earlier elements and the
    failing one, no later element is attempted, the error is logged,
    and the loop over objects goes on from that collection. *)
Theorem store_error_ends_the_object self k o before x after c c1 t1 :
  object_get (s3_bucket self) k = Some o ->
  content o = Json (JArr (before ++ x :: after)) ->
  for_ before (insert_item insert_one) c = (Return tt, c1, t1) ->
  insert_one c1 x = OtherError ->
  let run := insert_data_from_file insert_one self k c in
  run = (Return tt, c1,
         S3Get k :: t1 ++ [InsertOne x OtherError; Log ERROR (FailedInsert k StoreWriteError)])
  /\ attempts (trace_of run) = before ++ [x]
  /\ docs (collection_of run) = docs c ++ inserted t1
  /\ forall ks,
       for_ (k :: ks) (insert_data_from_file insert_one self) c =
         let r := for_ ks (insert_data_from_file insert_one self) c1 in
         (Return tt, collection_of r, trace_of run ++ trace_of r).
Proof.
  intros Ho Hc Hb Hx run.
  assert (Hrun : run = (Return tt, c1,
                        S3Get k :: t1 ++ [InsertOne x OtherError;
                                          Log ERROR (FailedInsert k StoreWriteError)]))
    by (apply (insert_data_from_file_store_error _ _ _ o before x after); assumption).
  split; [ exact Hrun | ].
  split; [ | split ].
  - rewrite Hrun. simpl. rewrite attempts_app. simpl.
    pose proof (insert_items_returned insert_one before c) as H.
    rewrite Hb in H. simpl in H. rewrite H; reflexivity.
  - rewrite Hrun. simpl.
    pose proof (insert_items_inserted insert_one before c) as [H _].
    rewrite Hb in H. exact H.
  - intros ks. rewrite insert_files_cons. fold run. rewrite Hrun. reflexivity.
Qed.

(** C3, as the code has it: a store error that is not a duplicate key
    is absorbed by the object it occurs in.  The failing element's
    answer is the error and an error record names the object, no
    exception leaves [insert_data_from_file], and in a loop over
    objects every object, before or after, is fetched and those after
    it are processed from the collection the failing object left. *)
Theorem store_error_is_absorbed_by_the_object self k o before x after c c1 t1 :
  object_get (s3_bucket self) k = Some o ->
  content o = Json (JArr (before ++ x :: after)) ->
  for_ before (insert_item insert_one) c = (Return tt, c1, t1) ->
  insert_one c1 x = OtherError ->
  let run := insert_data_from_file insert_one self k c in
  result_of run = Return tt
  /\ In (InsertOne x OtherError) (trace_of run)
  /\ In (Log ERROR (FailedInsert k StoreWriteError)) (trace_of run)
  /\ (forall ks,
        for_ (k :: ks) (insert_data_from_file insert_one self) c =
          let r := for_ ks (insert_data_from_file insert_one self) c1 in
          (Return tt, collection_of r, trace_of run ++ trace_of r))
  /\ (forall ks c0 k',
        In k' ks ->
        In (S3Get k') (trace_of (for_ ks (insert_data_from_file insert_one self) c0))).
Proof.
  intros Ho Hc Hb Hx run.
  assert (Hrun : run = (Return tt, c1,
                        S3Get k :: t1 ++ [InsertOne x OtherError;
                                          Log ERROR (FailedInsert k StoreWriteError)]))
    by (apply (insert_data_from_file_store_error _ _ _ o before x after); assumption).
  split; [ rewrite Hrun; reflexivity | ].
  split; [ | split; [ | split ] ].
  - rewrite Hrun. simpl. right. apply in_or_app. right. left. reflexivity.
  - rewrite Hrun. simpl. right. apply in_or_app. right. right. left. reflexivity.
  - intros ks. rewrite insert_files_cons. fold run. rewrite Hrun. reflexivity.
  - intros ks c0 k'. apply insert_files_fetch_all.
Qed.

(** C5, as the code has it: for an object that decodes to a list of
    dicts the insert attempts are the elements in list order, one
    answer each, up to the first write error, which is the last
    attempt; with no write error there are exactly as many attempts
    as elements.  For an object that decodes to a single dict there
    is exactly one attempt. *)
Theorem expansion_runs_until_a_store_error self k o c :
  object_get (s3_bucket self) k = Some o ->
  let t := trace_of (insert_data_from_file insert_one self k c) in
  (forall items,
     content o = Json (JArr items) ->
     Forall (fun x => is_mapping x = true) items ->
     attempts t = firstn (length (verdicts t)) items
     /\ (forall n, nth_error (verdicts t) n = Some OtherError -> S n = length (verdicts t))
     /\ (~ In OtherError (verdicts t) ->
         attempts t = items /\ length (verdicts t) = length items))
  /\ (forall fields,
        content o = Json (JObj fields) ->
        attempts t = [JObj fields] /\ length (verdicts t) = 1).
Proof.
  intros Ho t. split.
  - intros items Hc Hmap.
    assert (Ht : attempts t = attempts (trace_of (for_ items (insert_item insert_one) c))
                 /\ verdicts t = verdicts (trace_of (for_ items (insert_item insert_one) c))).
    { unfold t. rewrite insert_data_from_file_run, Ho, Hc. simpl.
      rewrite attempts_app, verdicts_app.
      destruct (result_of (for_ items (insert_item insert_one) c));
        simpl; rewrite !app_nil_r; split; reflexivity. }
    destruct Ht as [Ha Hv]. rewrite Ha, Hv.
    destruct (insert_items_verdicts insert_one items c) as [Hlast Hret].
    split; [ apply insert_items_attempts | ].
    split; [ exact Hlast | ].
    intros Hno. specialize (Hret Hmap Hno).
    pose proof (insert_items_returned insert_one items c Hret) as Hall.
    split; [ exact Hall | ].
    rewrite <- attempts_verdicts_length, Hall. reflexivity.
  - intros fields Hc. unfold t.
    rewrite insert_data_from_file_run, Ho, Hc. simpl.
    rewrite insert_item_run.
    destruct (insert_one c (JObj fields)); split; reflexivity.
Qed.

End RecordClaims.

(** ** Uniqueness of the identifier *)

Lemma adds_fresh_refl c : adds_fresh c c.
Proof.
  exists []. rewrite app_nil_r. split; [ reflexivity | ].
  split; [ constructor | intros d [] ].
Qed.

Lemma adds_fresh_trans c1 c2 c3 : adds_fresh c1 c2 -> adds_fresh c2 c3 -> adds_fresh c1 c3.
Proof.
  intros [n1 [Hd1 [Hn1 Hf1]]] [n2 [Hd2 [Hn2 Hf2]]].
  exists (n1 ++ n2). split; [ rewrite Hd2, Hd1, app_assoc; reflexivity | ].
  assert (Hsplit : forall d, In d n2 ->
            ~ In (identifier d) (map identifier (docs c1))
            /\ ~ In (identifier d) (map identifier n1)).
  { intros d Hd. specialize (Hf2 d Hd). rewrite Hd1, map_app in Hf2.
    split; intros H; apply Hf2, in_or_app; [ left | right ]; assumption. }
  split.
  - rewrite map_app. apply NoDup_app; [ assumption | assumption | ].
    intros v Hv1 Hv2. apply in_map_iff in Hv2. destruct Hv2 as [d [<- Hd]].
    apply (Hsplit d Hd). assumption.
  - intros d Hd. apply in_app_or in Hd. destruct Hd as [Hd | Hd].
    + apply Hf1. assumption.
    + apply (Hsplit d Hd).
Qed.

Lemma adds_fresh_NoDup c c' :
  adds_fresh c c' -> NoDup (map identifier (docs c)) -> NoDup (map identifier (docs c')).
Proof.
  intros [new [Hd [Hn Hf]]] Hc. rewrite Hd, map_app.
  apply NoDup_app; [ assumption | assumption | ].
  intros v Hv1 Hv2. apply in_map_iff in Hv2. destruct Hv2 as [d [<- Hin]].
  apply (Hf d Hin). assumption.
Qed.

Lemma fresh_extension_refl c : fresh_extension c c.
Proof. intros _. split; [ reflexivity | apply adds_fresh_refl ]. Qed.

Lemma fresh_extension_trans c1 c2 c3 :
  fresh_extension c1 c2 -> fresh_extension c2 c3 -> fresh_extension c1 c3.
Proof.
  intros H12 H23 Hidx. destruct (H12 Hidx) as [Hi1 Hf1].
  assert (Hidx2 : has_index c2 cutout_id = true)
    by (unfold has_index in *; rewrite Hi1; assumption).
  destruct (H23 Hidx2) as [Hi2 Hf2].
  split; [ congruence | ]. eapply adds_fresh_trans; eassumption.
Qed.

(** The reference store reports a duplicate exactly when the index is
    in place and the identifier value is taken. *)
Lemma unique_insert_one_enforces valid c d :
  has_index c cutout_id = true ->
  (unique_insert_one valid c d = DuplicateKey
   <-> In (identifier d) (map identifier (docs c))).
Proof.
  intros Hidx. unfold unique_insert_one. rewrite Hidx, <- id_taken_In. simpl.
  destruct (id_taken c d); [ split; reflexivity | ].
  destruct (valid d); split; discriminate.
Qed.

(** The reference store creates an index that exists without a word. *)
Lemma unique_create_index_again c f :
  has_index c f = true -> unique_create_index c f = true.
Proof. intros H. unfold unique_create_index. rewrite H. reflexivity. Qed.

Section Uniqueness.
Variable create_index : collection -> string -> bool.
Variable insert_one : collection -> json -> insert_result.

(** The store's contract: with the unique index in place, an insert
    is answered with a duplicate key exactly when the document's
    identifier value is already in the collection. *)
Hypothesis unique_index :
  forall c d,
    has_index c cutout_id = true ->
    (insert_one c d = DuplicateKey <-> In (identifier d) (map identifier (docs c))).

Lemma fresh_extension_insert c d :
  insert_one c d = InsertOk -> fresh_extension c (add_doc c d).
Proof.
  intros Hok Hidx. split; [ reflexivity | ].
  exists [d]. split; [ reflexivity | ]. split.
  - simpl. constructor; [ intros [] | constructor ].
  - intros d' [<- | []]. intros Hin.
    apply (unique_index c d Hidx) in Hin. congruence.
Qed.

Lemma main_adds_fresh s3 cfg c :
  adds_fresh c (collection_of (main create_index insert_one s3 cfg c)).
Proof.
  rewrite main_run. destruct (create_index c cutout_id); [ | apply adds_fresh_refl ].
  simpl.
  pose proof (load_batches_stable insert_one fresh_extension
                fresh_extension_refl fresh_extension_trans fresh_extension_insert
                (new_loader s3 cfg) (batches cfg) (add_index c cutout_id)
                (has_index_add_index c cutout_id)) as [_ [new [Hd Hrest]]].
  exists new. rewrite docs_add_index in Hd, Hrest. split; assumption.
Qed.

Lemma run_all_adds_fresh runs c :
  adds_fresh c (run_all create_index insert_one runs c).
Proof.
  revert c. induction runs as [ | [s3 cfg] runs IH ]; intros c.
  - apply adds_fresh_refl.
  - simpl. eapply adds_fresh_trans; [ apply main_adds_fresh | apply IH ].
Qed.

(** C1: whatever the runs, their buckets and their batch lists, the
    documents they add to the collection carry identifier values that
    are pairwise different and different from every value the
    collection held before; so a collection without two documents of
    one identifier value stays so after any sequence of runs. *)
Theorem identifiers_stay_unique runs c0 :
  let c := run_all create_index insert_one runs c0 in
  (exists new,
     docs c = docs c0 ++ new
     /\ NoDup (map identifier new)
     /\ forall d, In d new -> ~ In (identifier d) (map identifier (docs c0)))
  /\ (NoDup (map identifier (docs c0)) -> NoDup (map identifier (docs c))).
Proof.
  intros c. split.
  - apply run_all_adds_fresh.
  - apply adds_fresh_NoDup. apply run_all_adds_fresh.
Qed.

End Uniqueness.

(** ** Running the loader again *)

Lemma covers_extends c' a b : extends a b -> covers c' b -> covers c' a.
Proof.
  intros [_ [new Hd]] Hc v Hv. apply Hc. rewrite Hd, map_app.
  apply in_or_app. left. assumption.
Qed.

Lemma covers_refl c : covers c c.
Proof. intros v Hv. assumption. Qed.

(** A loop replays when each of its steps does, never raises and only
    appends. *)
Lemma replays_for {X} (f : X -> M unit) :
  (forall x, replays (f x)) ->
  (forall x c, result_of (f x c) = Return tt) ->
  (forall x, stable extends (f x)) ->
  forall xs, replays (for_ xs f).
Proof.
  intros Hrep Hret Hext xs. induction xs as [ | x xs IH ]; intros c c' Hi Hi' Hcov Hno.
  - split; [ reflexivity | constructor ].
  - rewrite (for_cons_returns _ _ _ _ (Hret x c)) in Hcov, Hno. simpl in Hcov, Hno.
    rewrite verdicts_app in Hno.
    pose proof (Hext x c) as Hx.
    pose proof (stable_for extends extends_refl extends_trans f xs Hext
                  (collection_of (f x c))) as Hxs.
    destruct (Hrep x c c' Hi Hi') as [Hc1 Hv1].
    + eapply covers_extends; eassumption.
    + intros H. apply Hno, in_or_app. left. assumption.
    + rewrite (for_cons_returns _ _ _ _ (Hret x c')). simpl.
      rewrite Hc1, verdicts_app.
      destruct (IH (collection_of (f x c)) c') as [Hc2 Hv2].
      * rewrite (extends_has_index _ _ _ Hx). assumption.
      * assumption.
      * assumption.
      * intros H. apply Hno, in_or_app. right. assumption.
      * split; [ assumption | ]. apply Forall_app. split; assumption.
Qed.

Section Rerun.
Variable create_index : collection -> string -> bool.
Variable insert_one : collection -> json -> insert_result.

(** The store's contract on inserts, as for uniqueness. *)
Hypothesis unique_index :
  forall c d,
    has_index c cutout_id = true ->
    (insert_one c d = DuplicateKey <-> In (identifier d) (map identifier (docs c))).

(** The store's contract on indexes: creating one that exists is a
    no-op, not an error. *)
Hypothesis create_index_again :
  forall c f, has_index c f = true -> create_index c f = true.

Lemma insert_item_extends item : stable extends (insert_item insert_one item).
Proof.
  apply (insert_item_stable insert_one extends extends_refl).
  intros c d _. apply extends_add_doc.
Qed.

Lemma insert_data_from_file_extends self k :
  stable extends (insert_data_from_file insert_one self k).
Proof.
  apply (insert_data_from_file_stable insert_one extends extends_refl extends_trans).
  intros c d _. apply extends_add_doc.
Qed.

Lemma load_batch_extends self name : stable extends (load_batch insert_one self name).
Proof.
  apply (load_batch_stable insert_one extends extends_refl extends_trans).
  intros c d _. apply extends_add_doc.
Qed.

(** A document attempted without write error in the first run is a
    duplicate for any collection that covers what the first run left. *)
Lemma insert_item_again item c c' :
  has_index c cutout_id = true ->
  has_index c' cutout_id = true ->
  covers c' (collection_of (insert_item insert_one item c)) ->
  insert_one c item <> OtherError ->
  insert_one c' item = DuplicateKey.
Proof.
  intros Hi Hi' Hcov Hno. apply (unique_index c' item Hi'). apply Hcov.
  rewrite insert_item_run.
  destruct (insert_one c item) eqn:E; [ | | congruence ].
  - simpl. rewrite map_app. apply in_or_app. right. left. reflexivity.
  - apply (unique_index c item Hi) in E.
    destruct item; simpl; assumption.
Qed.

Lemma insert_item_replays item : replays (insert_item insert_one item).
Proof.
  intros c c' Hi Hi' Hcov Hno.
  assert (Hdup : insert_one c' item = DuplicateKey).
  { apply (insert_item_again item c c'); try assumption.
    intros E. apply Hno. rewrite insert_item_run, E. left. reflexivity. }
  rewrite insert_item_run, Hdup.
  destruct item; simpl; split; repeat constructor.
Qed.

Lemma insert_items_replay items : replays (for_ items (insert_item insert_one)).
Proof.
  induction items as [ | x items IH ]; intros c c' Hi Hi' Hcov Hno.
  - split; [ reflexivity | constructor ].
  - pose proof (insert_item_extends x c) as Hx.
    destruct (result_of (insert_item insert_one x c)) as [[] | e] eqn:E.
    + rewrite (for_cons_returns _ _ _ _ E) in Hcov, Hno. simpl in Hcov, Hno.
      rewrite verdicts_app in Hno.
      pose proof (stable_for extends extends_refl extends_trans _ items
                    insert_item_extends (collection_of (insert_item insert_one x c))) as Hxs.
      destruct (insert_item_replays x c c' Hi Hi') as [Hc1 Hv1].
      * eapply covers_extends; eassumption.
      * intros H. apply Hno, in_or_app. left. assumption.
      * destruct (result_of (insert_item insert_one x c')) as [[] | e'] eqn:E'.
        -- rewrite (for_cons_returns _ _ _ _ E'). simpl.
           rewrite Hc1, verdicts_app.
           destruct (IH (collection_of (insert_item insert_one x c)) c') as [Hc2 Hv2].
           ++ rewrite (extends_has_index _ _ _ Hx). assumption.
           ++ assumption.
           ++ assumption.
           ++ intros H. apply Hno, in_or_app. right. assumption.
           ++ split; [ assumption | ]. apply Forall_app. split; assumption.
        -- rewrite (for_cons_raises _ _ _ _ _ E'). simpl. split; assumption.
    + rewrite (for_cons_raises _ _ _ _ _ E) in Hcov, Hno. simpl in Hcov, Hno.
      destruct (insert_item_replays x c c' Hi Hi' Hcov Hno) as [Hc1 Hv1].
      destruct (result_of (insert_item insert_one x c')) as [[] | e'] eqn:E'.
      * exfalso. revert E E'.
        assert (Hdup : insert_one c' x = DuplicateKey).
        { apply (insert_item_again x c c'); try assumption.
          intros E0. apply Hno. rewrite insert_item_run, E0. left. reflexivity. }
        rewrite !insert_item_run, Hdup.
        destruct (insert_one c x) eqn:E0; [ discriminate | | ].
        -- destruct x; simpl; discriminate.
        -- exfalso. apply Hno. rewrite insert_item_run, E0. left. reflexivity.
      * rewrite (for_cons_raises _ _ _ _ _ E'). simpl. split; assumption.
Qed.

Lemma insert_data_from_file_replays self k :
  replays (insert_data_from_file insert_one self k).
Proof.
  intros c c' Hi Hi'. rewrite !insert_data_from_file_run.
  destruct (object_get (s3_bucket self) k) as [o | ];
    [ | intros _ _; split; [ reflexivity | constructor ] ].
  destruct (content o) as [ | data ];
    [ intros _ _; split; [ reflexivity | constructor ] | ].
  simpl. rewrite !verdicts_app.
  intros Hcov Hno.
  assert (Hdata : replays (insert_data insert_one data))
    by (destruct data; simpl; try apply insert_item_replays; apply insert_items_replay).
  destruct (Hdata c c' Hi Hi' Hcov) as [Hc1 Hv1].
  - intros H. apply Hno, in_or_app. left. assumption.
  - split; [ assumption | ]. apply Forall_app. split; [ assumption | ].
    destruct (result_of (insert_data insert_one data c')); constructor.
Qed.

Lemma load_batch_replays self name : replays (load_batch insert_one self name).
Proof.
  intros c c' Hi Hi'. rewrite !load_batch_run.
  pose proof (replays_for (insert_data_from_file insert_one self)
                (insert_data_from_file_replays self)
                (insert_data_from_file_returns insert_one self)
                (insert_data_from_file_extends self)) as Hfiles.
  destruct (resolve _ _ _ _); simpl.
  - apply Hfiles; assumption.
  - apply Hfiles; assumption.
  - intros _ _. split; [ reflexivity | constructor ].
Qed.

Lemma load_batches_replay self names :
  replays (load_json_files_from_batches insert_one self names).
Proof.
  apply replays_for.
  - apply load_batch_replays.
  - apply load_batch_returns.
  - apply load_batch_extends.
Qed.

(** C2, as the code has it: when the first run ended normally and
    none of its inserts met a write error, a second run over the same
    bucket and batch list, from the collection the first run left,
    ends normally, leaves that collection as it is, and every one of
    its insert attempts meets a duplicate key. *)
Theorem second_run_only_skips s3 cfg c0 :
  let run1 := main create_index insert_one s3 cfg c0 in
  result_of run1 = Return tt ->
  ~ In OtherError (verdicts (trace_of run1)) ->
  let run2 := main create_index insert_one s3 cfg (collection_of run1) in
  result_of run2 = Return tt
  /\ collection_of run2 = collection_of run1
  /\ Forall (eq DuplicateKey) (verdicts (trace_of run2)).
Proof.
  intros run1 Hret Hno run2. unfold run2. clear run2.
  pose proof (main_run create_index insert_one s3 cfg c0) as H1. fold run1 in H1.
  destruct (create_index c0 cutout_id); [ | rewrite H1 in Hret; discriminate ].
  rewrite H1 in Hno |- *. clear H1 Hret run1. simpl in Hno |- *.
  set (c0' := add_index c0 cutout_id) in *.
  set (self := new_loader s3 cfg) in *.
  set (c1 := collection_of (load_json_files_from_batches insert_one self (batches cfg) c0')).
  assert (Hi0 : has_index c0' cutout_id = true) by apply has_index_add_index.
  assert (Hi1 : has_index c1 cutout_id = true).
  { unfold c1. rewrite (extends_has_index _ _ _ (load_batches_extends _ _ _ _)).
    assumption. }
  rewrite main_run, (create_index_again c1 cutout_id Hi1).
  rewrite (add_index_present c1 cutout_id Hi1). simpl.
  destruct (load_batches_replay self (batches cfg) c0' c1 Hi0 Hi1 (covers_refl c1) Hno)
    as [Hc Hv].
  split; [ reflexivity | ]. split; assumption.
Qed.

End Rerun.

(** ** The loader on concrete inputs *)

(** The first scenario of the specification: [B1] holds one record;
    the first run inserts it, the second skips it as a duplicate. *)
Example b1_inserted_then_skipped :
  docs (collection_of b1_first_run) = [cutout "x1"]
  /\ verdicts (trace_of b1_first_run) = [InsertOk]
  /\ verdicts (trace_of b1_second_run) = [DuplicateKey]
  /\ collection_of b1_second_run = collection_of b1_first_run
  /\ In (Log WARNING (DuplicateSkipped (JStr "x1") DuplicateKeyError)) (trace_of b1_second_run).
Proof. vm_compute. repeat split. do 8 right. left. reflexivity. Qed.

(** The second scenario: [B2] is under neither root; both are probed,
    a warning is logged, nothing is fetched and the run ends normally. *)
Example b2_not_found :
  main unique_create_index (unique_insert_one accept_all) b1_bucket (config ["B2"])
    empty_collection
  = (Return tt, indexed [],
     [CreateIndex cutout_id true; Log INFO (IndexCreated cutout_id);
      Log INFO (LoadedBatches 1);
      S3Probe "root/B2/" false; S3Probe "alt/B2/" false;
      Log WARNING (BatchNotFound "alt/B2")]).
Proof. reflexivity. Qed.

(** One object that does not decode among ten: the nine records are
    inserted and one decode failure is reported. *)
Example nine_of_ten_inserted :
  result_of ten_run = Return tt
  /\ length (docs (collection_of ten_run)) = 9
  /\ verdicts (trace_of ten_run) = repeat InsertOk 9
  /\ decode_failures (trace_of ten_run) = 1.
Proof. vm_compute. repeat split. Qed.

(** With only batch [abcdef] in the bucket, batch [abc] resolves under
    neither root: the probe is for [root/abc/]. *)
Example longer_batch_does_not_resolve_the_shorter :
  resolve [ object "root/abcdef/b.json" (cutout "y1") ] "abc" "root" "alt" = NotFound.
Proof. reflexivity. Qed.

(** C8 at batch names [abc] and [abcdef]: the probe for [abc] is
    [root/abc/], but the listing is asked for [root/abc], so the run on
    batch [abc] alone fetches [root/abcdef/b.json] and inserts its
    record. *)
Theorem shorter_batch_ingests_the_longer_one :
  In (S3Probe "root/abc/" true) (trace_of collision_run)
  /\ In (S3List "root/abc") (trace_of collision_run)
  /\ startswith "root/abcdef/b.json" "root/abc/" = false
  /\ In (S3Get "root/abcdef/b.json") (trace_of collision_run)
  /\ docs (collection_of collision_run) = [cutout "x1"; cutout "y1"].
Proof.
  vm_compute. repeat split.
  - do 3 right. left. reflexivity.
  - do 4 right. left. reflexivity.
  - do 8 right. left. reflexivity.
Qed.

(** C3 fails as stated: in the list [mixed_list] the second element
    meets a write error, and its sibling, the third element, is never
    handed to [insert_one]. *)
Lemma sibling_element_is_not_attempted :
  object_get (s3_bucket mixed_loader) "root/B/a.json"
    = Some (object "root/B/a.json" (JArr mixed_list))
  /\ verdicts (trace_of mixed_file_run) = [InsertOk; OtherError]
  /\ In (cutout "c") mixed_list
  /\ ~ In (cutout "c") (attempts (trace_of mixed_file_run)).
Proof.
  split; [ reflexivity | ]. split; [ reflexivity | ].
  split; [ right; right; left; reflexivity | ].
  vm_compute. intros [H | [H | []]]; discriminate.
Qed.

(** C5 fails as stated: the object decodes to a list of three dicts
    and only two insert attempts are made. *)
Lemma three_elements_two_attempts :
  object_get (s3_bucket mixed_loader) "root/B/a.json"
    = Some (object "root/B/a.json" (JArr mixed_list))
  /\ forallb is_mapping mixed_list = true
  /\ length mixed_list = 3
  /\ attempts (trace_of mixed_file_run) = [cutout "a"; bare "b"]
  /\ length (attempts (trace_of mixed_file_run)) <> length mixed_list.
Proof.
  split; [ reflexivity | ]. split; [ reflexivity | ]. split; [ reflexivity | ].
  split; [ reflexivity | ]. vm_compute. discriminate.
Qed.

(** C2 fails as stated: the second run over the unchanged bucket, from
    the collection the first run left, makes an insert attempt that
    meets a write error instead of a duplicate key. *)
Lemma second_run_meets_a_write_error :
  result_of mixed_first_run = Return tt
  /\ result_of mixed_second_run = Return tt
  /\ verdicts (trace_of mixed_second_run) = [DuplicateKey; OtherError; DuplicateKey]
  /\ ~ Forall (eq DuplicateKey) (verdicts (trace_of mixed_second_run)).
Proof.
  split; [ reflexivity | ]. split; [ reflexivity | ]. split; [ reflexivity | ].
  vm_compute. intros H. inversion H as [ | ? ? _ H' ]. inversion H' as [ | ? ? E _ ].
  discriminate.
Qed.

(** ** The theorems at concrete inputs *)

(** C1 at two runs over batch [B] with the validating store. *)
Lemma identifiers_stay_unique_witness :
  (forall c d,
     has_index c cutout_id = true ->
     (unique_insert_one requires_v c d = DuplicateKey
      <-> In (identifier d) (map identifier (docs c))))
  /\ NoDup (map identifier (docs empty_collection))
  /\ NoDup (map identifier
              (docs (run_all unique_create_index (unique_insert_one requires_v)
                       [(mixed_bucket, config ["B"]); (mixed_bucket, config ["B"])]
                       empty_collection))).
Proof.
  split; [ exact (unique_insert_one_enforces requires_v) | ].
  split; [ constructor | ].
  exact (proj2 (identifiers_stay_unique unique_create_index (unique_insert_one requires_v)
                  (unique_insert_one_enforces requires_v)
                  [(mixed_bucket, config ["B"]); (mixed_bucket, config ["B"])]
                  empty_collection)
               (NoDup_nil _)).
Defined.

(** C2 at batch [T]: nine records and an object that does not decode. *)
Lemma second_run_only_skips_witness :
  result_of ten_run = Return tt
  /\ ~ In OtherError (verdicts (trace_of ten_run))
  /\ result_of (main unique_create_index (unique_insert_one accept_all) ten_bucket
                  (config ["T"]) (collection_of ten_run)) = Return tt
  /\ collection_of (main unique_create_index (unique_insert_one accept_all) ten_bucket
                      (config ["T"]) (collection_of ten_run)) = collection_of ten_run
  /\ Forall (eq DuplicateKey)
       (verdicts (trace_of (main unique_create_index (unique_insert_one accept_all)
                              ten_bucket (config ["T"]) (collection_of ten_run)))).
Proof.
  assert (Hret : result_of ten_run = Return tt) by reflexivity.
  assert (Hno : ~ In OtherError (verdicts (trace_of ten_run))).
  { vm_compute. intros H. repeat (destruct H as [H | H]; [ discriminate | ]). exact H. }
  split; [ exact Hret | ]. split; [ exact Hno | ].
  exact (second_run_only_skips unique_create_index (unique_insert_one accept_all)
           (unique_insert_one_enforces accept_all) unique_create_index_again
           ten_bucket (config ["T"]) empty_collection Hret Hno).
Defined.

(** C3 at the list object of batch [B]. *)
Lemma store_error_is_absorbed_by_the_object_witness :
  object_get (s3_bucket mixed_loader) "root/B/a.json"
    = Some (object "root/B/a.json" (JArr mixed_list))
  /\ for_ [cutout "a"] (insert_item (unique_insert_one requires_v)) (indexed [])
     = (Return tt, indexed [cutout "a"], [InsertOne (cutout "a") InsertOk])
  /\ unique_insert_one requires_v (indexed [cutout "a"]) (bare "b") = OtherError
  /\ result_of mixed_file_run = Return tt
  /\ In (InsertOne (bare "b") OtherError) (trace_of mixed_file_run)
  /\ In (Log ERROR (FailedInsert "root/B/a.json" StoreWriteError)) (trace_of mixed_file_run).
Proof.
  split; [ reflexivity | ]. split; [ reflexivity | ]. split; [ reflexivity | ].
  pose proof (store_error_is_absorbed_by_the_object (unique_insert_one requires_v)
                mixed_loader "root/B/a.json" (object "root/B/a.json" (JArr mixed_list))
                [cutout "a"] (bare "b") [cutout "c"] (indexed []) (indexed [cutout "a"])
                [InsertOne (cutout "a") InsertOk]
                eq_refl eq_refl eq_refl eq_refl) as [H1 [H2 [H3 _]]].
  split; [ exact H1 | ]. split; [ exact H2 | exact H3 ].
Defined.

(** C5 at the list object of batch [B]. *)
Lemma expansion_runs_until_a_store_error_witness :
  object_get (s3_bucket mixed_loader) "root/B/a.json"
    = Some (object "root/B/a.json" (JArr mixed_list))
  /\ Forall (fun x => is_mapping x = true) mixed_list
  /\ attempts (trace_of mixed_file_run)
     = firstn (length (verdicts (trace_of mixed_file_run))) mixed_list.
Proof.
  assert (Hmap : Forall (fun x => is_mapping x = true) mixed_list)
    by (repeat constructor).
  split; [ reflexivity | ]. split; [ exact Hmap | ].
  exact (proj1 (proj1 (expansion_runs_until_a_store_error (unique_insert_one requires_v)
                         mixed_loader "root/B/a.json"
                         (object "root/B/a.json" (JArr mixed_list)) (indexed []) eq_refl)
                      mixed_list eq_refl Hmap)).
Defined.

(** C6 at a record whose identifier the collection holds. *)
Lemma duplicate_key_is_skipped_witness :
  unique_insert_one accept_all (indexed [cutout "x1"]) (cutout "x1") = DuplicateKey
  /\ insert_item (unique_insert_one accept_all) (cutout "x1") (indexed [cutout "x1"])
     = (Return tt, indexed [cutout "x1"],
        [InsertOne (cutout "x1") DuplicateKey;
         Log WARNING (DuplicateSkipped (JStr "x1") DuplicateKeyError)]).
Proof.
  split; [ reflexivity | ].
  exact (proj1 (duplicate_key_is_skipped (unique_insert_one accept_all)
                  [("cutout_id", JStr "x1"); ("v", JNum 1)] (indexed [cutout "x1"])
                  eq_refl)).
Defined.

(** C10 at the list object of batch [B]. *)
Lemma store_error_ends_the_object_witness :
  object_get (s3_bucket mixed_loader) "root/B/a.json"
    = Some (object "root/B/a.json" (JArr mixed_list))
  /\ for_ [cutout "a"] (insert_item (unique_insert_one requires_v)) (indexed [])
     = (Return tt, indexed [cutout "a"], [InsertOne (cutout "a") InsertOk])
  /\ unique_insert_one requires_v (indexed [cutout "a"]) (bare "b") = OtherError
  /\ mixed_file_run
     = (Return tt, indexed [cutout "a"],
        [S3Get "root/B/a.json"; InsertOne (cutout "a") InsertOk;
         InsertOne (bare "b") OtherError;
         Log ERROR (FailedInsert "root/B/a.json" StoreWriteError)])
  /\ attempts (trace_of mixed_file_run) = [cutout "a"; bare "b"].
Proof.
  split; [ reflexivity | ]. split; [ reflexivity | ]. split; [ reflexivity | ].
  pose proof (store_error_ends_the_object (unique_insert_one requires_v)
                mixed_loader "root/B/a.json" (object "root/B/a.json" (JArr mixed_list))
                [cutout "a"] (bare "b") [cutout "c"] (indexed []) (indexed [cutout "a"])
                [InsertOne (cutout "a") InsertOk]
                eq_refl eq_refl eq_refl eq_refl) as [H1 [H2 _]].
  split; [ exact H1 | exact H2 ].
Defined.

(** * Further properties of the loader *)

(** ** Prefixes *)






(** X1: the existence probe answers [True] exactly when some object of
    the bucket has a key that starts with the folder key, separator
    included; limiting the listing to one object does not change the
    answer, and the collection is not touched. *)
Theorem probe_finds_any_object_under_the_folder self dir c :
  (result_of (s3_folder_exists self dir c) = Return true
   <-> exists o, In o (s3_bucket self) /\ startswith (key o) (folder_prefix dir) = true)
  /\ (result_of (s3_folder_exists self dir c) = Return false
      <-> forall o, In o (s3_bucket self) -> startswith (key o) (folder_prefix dir) = false)
  /\ collection_of (s3_folder_exists self dir c) = c.
Proof.
  rewrite s3_folder_exists_run. simpl. unfold exists_under.
  split; [ | split; [ | reflexivity ] ].
  - rewrite <- existsb_exists. split; [ intros H; injection H as H; exact H | intros ->; reflexivity ].
  - split.
    + intros H. injection H as H. intros o Ho.
      destruct (startswith (key o) (folder_prefix dir)) eqn:E; [ | reflexivity ].
      assert (Hex : existsb (fun o => startswith (key o) (folder_prefix dir)) (s3_bucket self) = true)
        by (apply existsb_exists; exists o; split; assumption).
      congruence.
    + intros H. f_equal.
      destruct (existsb _ (s3_bucket self)) eqn:E; [ | reflexivity ].
      apply existsb_exists in E. destruct E as [o [Ho Hs]].
      rewrite (H o Ho) in Hs. discriminate.
Qed.

(** X2: normalising a folder key is idempotent, so a caller may pass
    the key with or without its trailing separator: the probe made and
    the answer are the same. *)
Theorem probe_ignores_a_trailing_separator self dir c :
  folder_prefix (folder_prefix dir) = folder_prefix dir
  /\ s3_folder_exists self (folder_prefix dir) c = s3_folder_exists self dir c
  /\ (endswith dir "/" = false ->
      s3_folder_exists self (dir ++ "/")%string c = s3_folder_exists self dir c).
Proof.
  assert (Hidem : folder_prefix (folder_prefix dir) = folder_prefix dir).
  { unfold folder_prefix at 1. rewrite folder_prefix_endswith. reflexivity. }
  split; [ exact Hidem | ]. split.
  - rewrite !s3_folder_exists_run. unfold exists_under. rewrite Hidem. reflexivity.
  - intros He.
    assert (Hp : folder_prefix dir = (dir ++ "/")%string)
      by (unfold folder_prefix; rewrite He; reflexivity).
    rewrite <- Hp. rewrite !s3_folder_exists_run. unfold exists_under.
    rewrite Hidem. reflexivity.
Qed.



(** ** What is fetched *)

Lemma fetched_app : forall t1 t2, fetched (t1 ++ t2) = fetched t1 ++ fetched t2.
Proof.
  induction t1 as [ | e t1 IH ]; intros t2; [ reflexivity | ].
  destruct e; simpl; rewrite IH; reflexivity.
Qed.

Lemma not_found_app : forall t1 t2, not_found (t1 ++ t2) = not_found t1 ++ not_found t2.
Proof.
  induction t1 as [ | e t1 IH ]; intros t2; [ reflexivity | ].
  destruct e as [ | | | | | [ | | ] [ | | | | | | | ] ]; simpl; rewrite IH; reflexivity.
Qed.

Lemma fetched_none t :
  Forall (fun e => match e with S3Get _ => False | _ => True end) t -> fetched t = [].
Proof.
  induction 1 as [ | e t He _ IH ]; [ reflexivity | ].
  destruct e; simpl; try exact IH. contradiction.
Qed.

Lemma not_found_none t :
  Forall (fun e => match e with Log WARNING (BatchNotFound _) => False | _ => True end) t ->
  not_found t = [].
Proof.
  induction 1 as [ | e t He _ IH ]; [ reflexivity | ].
  destruct e as [ | | | | | [ | | ] [ | | | | | | | ] ]; simpl; try exact IH. contradiction.
Qed.

(** The listing of a directory: the keys of the bucket that start with
    it and end in [.json]. *)
Lemma json_keys_In b dir k :
  In k (json_keys b dir)
  <-> exists o, In o b /\ key o = k
                /\ startswith k dir = true /\ endswith k ".json" = true.
Proof.
  unfold json_keys, objects_filter. rewrite in_map_iff. split.
  - intros [o [Hk Ho]]. apply filter_In in Ho. destruct Ho as [Ho He].
    apply filter_In in Ho. destruct Ho as [Ho Hs]. subst k.
    exists o. repeat split; assumption.
  - intros [o [Ho [Hk [Hs He]]]]. subst k. exists o. split; [ reflexivity | ].
    apply filter_In. split; [ | assumption ]. apply filter_In. split; assumption.
Qed.

(** A listed key is a key of the bucket. *)
Lemma json_keys_present b dir k : In k (json_keys b dir) -> object_get b k <> None.
Proof.
  intros Hin. apply json_keys_In in Hin. destruct Hin as [o [Ho [Hk _]]].
  unfold object_get. intros Hnone.
  apply (find_none _ _ Hnone) in Ho. rewrite Hk, String.eqb_refl in Ho. discriminate.
Qed.

Lemma emits_for_in (P : event -> Prop) {X} (f : X -> M unit) xs :
  (forall x, In x xs -> emits_only P (f x)) -> emits_only P (for_ xs f).
Proof.
  induction xs as [ | x xs IH ]; intros Hf.
  - apply emits_ret.
  - simpl. apply emits_bind.
    + apply Hf. left. reflexivity.
    + intros _. apply IH. intros y Hy. apply Hf. right. assumption.
Qed.

(** A loop raises only what its body raises. *)
Lemma for_raises_only (Q : exn -> Prop) {X} (f : X -> M unit) :
  (forall x c e, result_of (f x c) = Raise e -> Q e) ->
  forall xs c e, result_of (for_ xs f c) = Raise e -> Q e.
Proof.
  intros Hf xs. induction xs as [ | x xs IH ]; intros c e; [ discriminate | ].
  destruct (result_of (f x c)) as [[] | e'] eqn:E.
  - rewrite (for_cons_returns _ _ _ _ E). simpl. apply IH.
  - rewrite (for_cons_raises _ _ _ _ _ E). simpl. intros H. injection H as <-.
    apply (Hf x c). assumption.
Qed.

Section Fetching.
Variable insert_one : collection -> json -> insert_result.

(** The guarded insert makes the call to the store and, at most, logs
    the skipped duplicate; it raises a write error or, for a duplicate
    that is not a dict, an attribute error. *)
Lemma insert_item_events item : emits_only insert_event (insert_item insert_one item).
Proof.
  intros c. rewrite insert_item_run.
  destruct (insert_one c item); [ | destruct item | ]; simpl; repeat constructor.
Qed.

Lemma insert_data_events data : emits_only insert_event (insert_data insert_one data).
Proof.
  destruct data; simpl; try apply insert_item_events.
  apply emits_for. intros x. apply insert_item_events.
Qed.

Lemma insert_item_raises_which item c e :
  result_of (insert_item insert_one item c) = Raise e ->
  e = StoreWriteError \/ e = AttributeError.
Proof.
  rewrite insert_item_run.
  destruct (insert_one c item); [ | destruct item | ]; simpl; intros H;
    try discriminate; injection H as <-; auto.
Qed.

Lemma insert_data_raises_which data c e :
  result_of (insert_data insert_one data c) = Raise e ->
  e = StoreWriteError \/ e = AttributeError.
Proof.
  destruct data; simpl; try apply insert_item_raises_which.
  apply (for_raises_only (fun e => e = StoreWriteError \/ e = AttributeError)).
  apply insert_item_raises_which.
Qed.

Lemma insert_data_emits (P : event -> Prop) data :
  (forall d r, P (InsertOne d r)) -> (forall l m, P (Log l m)) ->
  emits_only P (insert_data insert_one data).
Proof.
  intros Hi Hl. destruct data; simpl; try (apply insert_item_emits; assumption).
  apply emits_for. intros x. apply insert_item_emits; assumption.
Qed.

(** A file is fetched once, whatever it holds. *)
Lemma insert_data_from_file_fetched self k c :
  fetched (trace_of (insert_data_from_file insert_one self k c)) = [k].
Proof.
  rewrite insert_data_from_file_run.
  destruct (object_get (s3_bucket self) k) as [o | ]; [ | reflexivity ].
  destruct (content o) as [ | data ]; [ reflexivity | ].
  simpl. f_equal. rewrite fetched_app.
  rewrite (fetched_none (trace_of (insert_data insert_one data c))).
  - destruct (result_of (insert_data insert_one data c)); reflexivity.
  - apply (insert_data_emits
             (fun e => match e with S3Get _ => False | _ => True end)); intros; exact I.
Qed.

Lemma insert_files_fetched self ks c :
  fetched (trace_of (for_ ks (insert_data_from_file insert_one self) c)) = ks.
Proof.
  revert c. induction ks as [ | k ks IH ]; intros c; [ reflexivity | ].
  rewrite insert_files_cons. simpl.
  rewrite fetched_app, insert_data_from_file_fetched, IH. reflexivity.
Qed.

(** X4: a batch fetches exactly its listing, in listing order and each
    key once: the keys of the bucket that start with the directory it
    resolved to and end in [.json]; a batch found under neither root
    fetches nothing. *)
Theorem resolved_batch_fetches_its_listing self batch_name c :
  let primary := os_path_join (primary_s3_root self) batch_name in
  let secondary := os_path_join (secondary_s3_root self) batch_name in
  fetched (trace_of (load_batch insert_one self batch_name c)) =
    match resolve (s3_bucket self) batch_name (primary_s3_root self) (secondary_s3_root self) with
    | ResolvedPrimary => json_keys (s3_bucket self) primary
    | ResolvedSecondary => json_keys (s3_bucket self) secondary
    | NotFound => []
    end
  /\ forall dir k,
       In k (json_keys (s3_bucket self) dir)
       <-> exists o, In o (s3_bucket self) /\ key o = k
                     /\ startswith k dir = true /\ endswith k ".json" = true.
Proof.
  intros primary secondary. split; [ | intros dir k; apply json_keys_In ].
  rewrite load_batch_run. fold primary secondary.
  destruct (resolve _ _ _ _); simpl; try reflexivity;
    unfold batch_files; apply insert_files_fetched.
Qed.


Lemma failures_app : forall t1 t2, failures (t1 ++ t2) = failures t1 ++ failures t2.
Proof.
  induction t1 as [ | e t1 IH ]; intros t2; [ reflexivity | ].
  destruct e as [ | | | | | [ | | ] [ | | | | | | | ] ]; simpl; rewrite IH; reflexivity.
Qed.

Lemma failures_none t : Forall insert_event t -> failures t = [].
Proof.
  induction 1 as [ | e t He _ IH ]; [ reflexivity | ].
  destruct e as [ | | | | | [ | | ] [ | | | | | | | ] ]; simpl; try exact IH; destruct He.
Qed.

(** X6: no exception leaves [insert_data_from_file]: whatever the
    store answers and whatever the object holds, it returns normally;
    it reports at most one failure, as its last record, and the
    exception reported is a missing key, a decode error, a write error
    of the store or the attribute error of a duplicate that is not a
    dict. *)
Theorem file_ingestion_never_raises self k c :
  let run := insert_data_from_file insert_one self k c in
  result_of run = Return tt
  /\ (failures (trace_of run) = []
      \/ exists e t,
           trace_of run = t ++ [Log ERROR (FailedInsert k e)]
           /\ failures t = []
           /\ (e = NoSuchKey \/ e = DecodeError
               \/ e = StoreWriteError \/ e = AttributeError)).
Proof.
  intros run. split; [ apply insert_data_from_file_returns | ].
  unfold run. rewrite insert_data_from_file_run.
  destruct (object_get (s3_bucket self) k) as [o | ].
  - destruct (content o) as [ | data ].
    + right. exists DecodeError, [S3Get k]. repeat split. auto.
    + simpl.
      pose proof (failures_none _ (insert_data_events data c)) as Hnone.
      pose proof (insert_data_raises_which data c) as Hw.
      destruct (result_of (insert_data insert_one data c)) as [ | e ].
      * left. rewrite failures_app, Hnone. reflexivity.
      * right. exists e, (S3Get k :: trace_of (insert_data insert_one data c)).
        split; [ reflexivity | ]. split; [ exact Hnone | ].
        destruct (Hw e eq_refl) as [-> | ->]; auto.
  - right. exists NoSuchKey, [S3Get k]. repeat split. auto.
Qed.

(** X7: a key the bucket does not hold is absorbed like any other
    failure of a file: the fetch and one error record, the collection
    as it was, and the loop over files goes on; but the keys a batch
    lists are keys of the bucket, so a run of [load_batch] reports no
    missing key. *)
Theorem missing_key_is_absorbed self k c :
  object_get (s3_bucket self) k = None ->
  insert_data_from_file insert_one self k c
    = (Return tt, c, [S3Get k; Log ERROR (FailedInsert k NoSuchKey)])
  /\ (forall ks,
        for_ (k :: ks) (insert_data_from_file insert_one self) c =
          let r := for_ ks (insert_data_from_file insert_one self) c in
          (Return tt, collection_of r,
           [S3Get k; Log ERROR (FailedInsert k NoSuchKey)] ++ trace_of r))
  /\ (forall batch_name c0,
        Forall (fun e => forall k', e <> Log ERROR (FailedInsert k' NoSuchKey))
               (trace_of (load_batch insert_one self batch_name c0))).
Proof.
  intros Hnone.
  assert (Hrun : insert_data_from_file insert_one self k c
                 = (Return tt, c, [S3Get k; Log ERROR (FailedInsert k NoSuchKey)]))
    by (rewrite insert_data_from_file_run, Hnone; reflexivity).
  split; [ exact Hrun | ]. split.
  - intros ks. rewrite insert_files_cons, Hrun. reflexivity.
  - intros batch_name c0.
    assert (Hfiles : forall dir,
              emits_only (fun e => forall k', e <> Log ERROR (FailedInsert k' NoSuchKey))
                         (batch_files insert_one self dir)).
    { intros dir. unfold batch_files. apply emits_for_in. intros k1 Hk1 c1.
      apply json_keys_present in Hk1.
      rewrite insert_data_from_file_run.
      destruct (object_get (s3_bucket self) k1) as [o | ]; [ | contradiction ].
      destruct (content o) as [ | data ].
      - repeat constructor; intros k'; discriminate.
      - simpl. constructor; [ intros k'; discriminate | ].
        apply Forall_app. split.
        + eapply Forall_impl; [ | apply insert_data_events ].
          intros e He k'. destruct e as [ | | | | | [ | | ] m ]; try discriminate;
            destruct He.
        + pose proof (insert_data_raises_which data c1) as Hw.
          destruct (result_of (insert_data insert_one data c1)) as [ | e ];
            constructor; [ | constructor ].
          intros k' H. injection H as _ ->.
          destruct (Hw NoSuchKey eq_refl); discriminate. }
    rewrite load_batch_run.
    destruct (resolve _ _ _ _); simpl;
      repeat (constructor; [ intros k'; discriminate | ]);
      try apply Hfiles; constructor.
Qed.

End Fetching.

(** ** Accounting for the documents *)

Lemma accounted_ret {A} (a : A) : accounted (ret a).
Proof. intros c. simpl. rewrite app_nil_r. reflexivity. Qed.

Lemma accounted_raise {A} (e : exn) : accounted (@raise A e).
Proof. intros c. simpl. rewrite app_nil_r. reflexivity. Qed.

Lemma accounted_emit (e : event) : inserted [e] = [] -> accounted (emit e).
Proof. intros H c. unfold emit. simpl trace_of. rewrite H, app_nil_r. reflexivity. Qed.

Lemma accounted_bind {A B} (m : M A) (f : A -> M B) :
  accounted m -> (forall a, accounted (f a)) -> accounted (bind m f).
Proof.
  intros Hm Hf c. specialize (Hm c). unfold bind.
  destruct (m c) as [[[a | e] c1] t1]; simpl in *; [ | assumption ].
  specialize (Hf a c1). destruct (f a c1) as [[r c2] t2]. simpl in *.
  rewrite Hf, Hm, inserted_app, app_assoc. reflexivity.
Qed.

Lemma accounted_try_except {A} (m : M A) handles h :
  accounted m -> (forall e, accounted (h e)) -> accounted (try_except m handles h).
Proof.
  intros Hm Hh c. specialize (Hm c). unfold try_except.
  destruct (m c) as [[[a | e] c1] t1]; simpl in *; [ assumption | ].
  destruct (handles e); [ | assumption ].
  specialize (Hh e c1). destruct (h e c1) as [[r c2] t2]. simpl in *.
  rewrite Hh, Hm, inserted_app, app_assoc. reflexivity.
Qed.

Lemma accounted_for {X} (f : X -> M unit) xs :
  (forall x, accounted (f x)) -> accounted (for_ xs f).
Proof.
  intros Hf. induction xs as [ | x xs IH ].
  - apply accounted_ret.
  - simpl. apply accounted_bind; [ apply Hf | intros _; exact IH ].
Qed.

Section Accounting.
Variable create_index : collection -> string -> bool.
Variable insert_one : collection -> json -> insert_result.

Lemma accounted_insert_one d : accounted (collection_insert_one insert_one d).
Proof.
  intros c. unfold collection_insert_one.
  destruct (insert_one c d); simpl; rewrite ?app_nil_r; reflexivity.
Qed.

Lemma accounted_create_index f : accounted (collection_create_index create_index f).
Proof.
  intros c. unfold collection_create_index.
  destruct (create_index c f); simpl; rewrite ?docs_add_index, app_nil_r; reflexivity.
Qed.

Lemma accounted_insert_item item : accounted (insert_item insert_one item).
Proof.
  unfold insert_item. apply accounted_try_except; [ apply accounted_insert_one | ].
  intros e. apply accounted_bind.
  - unfold py_get. destruct item; try apply accounted_raise. apply accounted_ret.
  - intros id. apply accounted_emit. reflexivity.
Qed.

Lemma accounted_insert_data_from_file self k :
  accounted (insert_data_from_file insert_one self k).
Proof.
  unfold insert_data_from_file. apply accounted_try_except.
  - apply accounted_bind.
    + unfold fetch_json. apply accounted_bind; [ apply accounted_emit; reflexivity | ].
      intros _. destruct (object_get (s3_bucket self) k) as [o | ]; [ | apply accounted_raise ].
      destruct (content o); [ apply accounted_raise | apply accounted_ret ].
    + intros data. destruct data; simpl; try apply accounted_insert_item.
      apply accounted_for. apply accounted_insert_item.
  - intros e. apply accounted_emit. reflexivity.
Qed.

Lemma accounted_load_batch self name : accounted (load_batch insert_one self name).
Proof.
  assert (Hprobe : forall dir, accounted (s3_folder_exists self dir)).
  { intros dir. unfold s3_folder_exists.
    apply accounted_bind; [ apply accounted_emit; reflexivity | intros _; apply accounted_ret ]. }
  unfold load_batch. apply accounted_bind; [ apply Hprobe | ].
  intros [ | ].
  - apply accounted_bind.
    + unfold list_json_files.
      apply accounted_bind; [ apply accounted_emit; reflexivity | intros _; apply accounted_ret ].
    + intros ks. apply accounted_bind; [ apply accounted_emit; reflexivity | ].
      intros _. apply accounted_for. apply accounted_insert_data_from_file.
  - apply accounted_bind; [ apply Hprobe | ].
    intros [ | ].
    + apply accounted_bind.
      * unfold list_json_files.
        apply accounted_bind; [ apply accounted_emit; reflexivity | intros _; apply accounted_ret ].
      * intros ks. apply accounted_bind; [ apply accounted_emit; reflexivity | ].
        intros _. apply accounted_for. apply accounted_insert_data_from_file.
    + apply accounted_emit. reflexivity.
Qed.

Lemma accounted_main s3 cfg : accounted (main create_index insert_one s3 cfg).
Proof.
  unfold main. apply accounted_bind.
  - unfold init. apply accounted_bind; [ | intros _; apply accounted_ret ].
    unfold create_id_index. apply accounted_try_except.
    + apply accounted_bind; [ apply accounted_create_index | ].
      intros _. apply accounted_emit. reflexivity.
    + intros e. apply accounted_bind; [ apply accounted_emit; reflexivity | ].
      intros _. apply accounted_raise.
  - intros self. apply accounted_bind.
    + unfold load_batches_from_yaml.
      apply accounted_bind; [ apply accounted_emit; reflexivity | intros _; apply accounted_ret ].
    + intros names. unfold load_json_files_from_batches.
      apply accounted_for. apply accounted_load_batch.
Qed.

(** X8: a run never removes, reorders or rewrites a document: the
    documents after it are the documents before it followed by exactly
    those [insert_one] accepted, in the order they were accepted, also
    when the run ends in [SystemExit]; the only index a run can add is
    the one on [cutout_id]. *)
Theorem run_appends_what_the_store_accepted s3 cfg c :
  let run := main create_index insert_one s3 cfg c in
  docs (collection_of run) = docs c ++ inserted (trace_of run)
  /\ length (docs (collection_of run)) = length (docs c) + length (inserted (trace_of run))
  /\ indexes (collection_of run)
     = if create_index c cutout_id then indexes (add_index c cutout_id) else indexes c.
Proof.
  intros run.
  assert (Hd : docs (collection_of run) = docs c ++ inserted (trace_of run))
    by apply accounted_main.
  split; [ exact Hd | ]. split; [ rewrite Hd, length_app; reflexivity | ].
  unfold run. rewrite main_run.
  destruct (create_index c cutout_id); [ | reflexivity ].
  simpl. apply load_batches_extends.
Qed.

(** The run of [create_id_index] for any data type. *)
Lemma create_id_index_any data_type c :
  let f := if String.eqb data_type "cutouts" then cutout_id else "image_id" in
  create_id_index create_index data_type c =
    if create_index c f
    then (Return tt, add_index c f, [CreateIndex f true; Log INFO (IndexCreated f)])
    else (Raise SystemExit, c,
          [CreateIndex f false; Log ERROR (IndexFailed f IndexBuildError)]).
Proof.
  intros f. unfold create_id_index, try_except, bind, collection_create_index. fold f.
  destruct (create_index c f); reflexivity.
Qed.

End Accounting.

Section IndexAgain.
Variable create_index : collection -> string -> bool.

(** The store's contract on indexes: creating one that exists is a
    no-op, not an error. *)
Hypothesis create_index_again :
  forall c f, has_index c f = true -> create_index c f = true.

(** X9: [create_id_index] never touches the documents, indexes
    [cutout_id] for the data type [cutouts] and [image_id] for every
    other one, and is idempotent: once it has succeeded, calling it
    again succeeds and leaves the collection as it is. *)
Theorem index_creation_is_idempotent data_type c :
  let f := if String.eqb data_type "cutouts" then cutout_id else "image_id" in
  let once := create_id_index create_index data_type c in
  docs (collection_of once) = docs c
  /\ (result_of once = Return tt ->
      has_index (collection_of once) f = true
      /\ create_id_index create_index data_type (collection_of once)
         = (Return tt, collection_of once, [CreateIndex f true; Log INFO (IndexCreated f)])).
Proof.
  intros f once. unfold once. rewrite (create_id_index_any create_index data_type c). fold f.
  destruct (create_index c f) eqn:E; simpl.
  - split; [ apply docs_add_index | ]. intros _.
    pose proof (has_index_add_index c f) as Hi.
    split; [ exact Hi | ].
    rewrite (create_id_index_any create_index data_type (add_index c f)). fold f.
    rewrite (create_index_again _ _ Hi), (add_index_present _ _ Hi). reflexivity.
  - split; [ reflexivity | discriminate ].
Qed.

End IndexAgain.

(** ** Lists of batches *)

Section BatchLists.
Variable insert_one : collection -> json -> insert_result.

(** X10: batches are processed one after the other: a run over two
    lists of batch names, one after the other, is the run over the
    first followed by the run over the second from the collection the
    first left, their traces in that order. *)
Theorem batch_lists_compose self names1 names2 c :
  load_json_files_from_batches insert_one self (names1 ++ names2) c =
    let r1 := load_json_files_from_batches insert_one self names1 c in
    let r2 := load_json_files_from_batches insert_one self names2 (collection_of r1) in
    (Return tt, collection_of r2, trace_of r1 ++ trace_of r2).
Proof.
  unfold load_json_files_from_batches.
  apply (for_app_returns _ (load_batch_returns insert_one self)).
Qed.

(** The store's contract on inserts, as for uniqueness. *)
Hypothesis unique_index :
  forall c d,
    has_index c cutout_id = true ->
    (insert_one c d = DuplicateKey <-> In (identifier d) (map identifier (docs c))).

(** X11: batch names listed twice are harmless: when the run over a
    list of names, from a collection with the index, met no write
    error, the run over that list twice ends with the same collection,
    and each insert attempt of the second pass meets a duplicate key. *)
Theorem repeated_batches_insert_nothing_new self names c :
  has_index c cutout_id = true ->
  let once := load_json_files_from_batches insert_one self names c in
  ~ In OtherError (verdicts (trace_of once)) ->
  let twice := load_json_files_from_batches insert_one self (names ++ names) c in
  collection_of twice = collection_of once
  /\ exists t2,
       trace_of twice = trace_of once ++ t2
       /\ Forall (eq DuplicateKey) (verdicts t2).
Proof.
  intros Hi once Hno twice. unfold twice.
  unfold load_json_files_from_batches.
  rewrite (for_app_returns _ (load_batch_returns insert_one self)).
  fold (load_json_files_from_batches insert_one self names c). fold once.
  fold (load_json_files_from_batches insert_one self names (collection_of once)).
  assert (Hi1 : has_index (collection_of once) cutout_id = true).
  { unfold once. rewrite (extends_has_index _ _ _ (load_batches_extends _ _ _ _)).
    assumption. }
  destruct (load_batches_replay insert_one unique_index self names c (collection_of once)
              Hi Hi1 (covers_refl _) Hno) as [Hc Hv].
  simpl. split; [ exact Hc | ].
  eexists. split; [ reflexivity | exact Hv ].
Qed.

End BatchLists.

(** ** Nothing fetched is lost *)

Lemma holds_extends c c' x : extends c c' -> holds c x -> holds c' x.
Proof.
  intros [_ [new Hd]] H. unfold holds. rewrite Hd, map_app.
  apply in_or_app. left. exact H.
Qed.

(** A loop is complete when each of its steps is, never raises and
    only appends. *)
Lemma complete_for b {X} (f : X -> M unit) :
  (forall x, complete b (f x)) ->
  (forall x c, result_of (f x c) = Return tt) ->
  (forall x, stable extends (f x)) ->
  forall xs, complete b (for_ xs f).
Proof.
  intros Hcomp Hret Hext xs. induction xs as [ | y xs IH ]; intros c Hi Hno k o x Hk Ho Hx.
  - destruct Hk.
  - rewrite (for_cons_returns _ _ _ _ (Hret y c)) in Hk, Hno |- *. simpl in Hk, Hno |- *.
    rewrite fetched_app in Hk. rewrite verdicts_app in Hno.
    pose proof (Hext y c) as Hy.
    pose proof (stable_for extends extends_refl extends_trans f xs Hext
                  (collection_of (f y c))) as Hxs.
    apply in_app_or in Hk. destruct Hk as [Hk | Hk].
    + apply (holds_extends _ _ _ Hxs).
      apply (Hcomp y c Hi) with (k := k) (o := o); try assumption.
      intros H. apply Hno, in_or_app. left. assumption.
    + apply (IH (collection_of (f y c))) with (k := k) (o := o); try assumption.
      * rewrite (extends_has_index _ _ _ Hy). assumption.
      * intros H. apply Hno, in_or_app. right. assumption.
Qed.

Section Completeness.
Variable create_index : collection -> string -> bool.
Variable insert_one : collection -> json -> insert_result.

(** The store's contract on inserts, as for uniqueness. *)
Hypothesis unique_index :
  forall c d,
    has_index c cutout_id = true ->
    (insert_one c d = DuplicateKey <-> In (identifier d) (map identifier (docs c))).

Lemma insert_item_holds item c :
  has_index c cutout_id = true ->
  insert_one c item <> OtherError ->
  holds (collection_of (insert_item insert_one item c)) item.
Proof.
  intros Hi Hno. rewrite insert_item_run. unfold holds.
  destruct (insert_one c item) eqn:E; [ | | congruence ].
  - simpl. rewrite map_app. apply in_or_app. right. left. reflexivity.
  - apply (unique_index c item Hi) in E. destruct item; exact E.
Qed.

Lemma insert_items_hold items c :
  Forall (fun x => is_mapping x = true) items ->
  has_index c cutout_id = true ->
  ~ In OtherError (verdicts (trace_of (for_ items (insert_item insert_one) c))) ->
  forall x, In x items -> holds (collection_of (for_ items (insert_item insert_one) c)) x.
Proof.
  revert c. induction items as [ | y items IH ]; intros c Hmap Hi Hno x Hx; [ destruct Hx | ].
  inversion Hmap as [ | ? ? Hy Hrest ]; subst.
  assert (Hverdict : insert_one c y <> OtherError).
  { intros E. apply Hno.
    assert (Er : result_of (insert_item insert_one y c) = Raise StoreWriteError)
      by (rewrite insert_item_run, E; reflexivity).
    rewrite (for_cons_raises _ _ _ _ _ Er). simpl.
    rewrite insert_item_run, E. left. reflexivity. }
  assert (Er : result_of (insert_item insert_one y c) = Return tt).
  { rewrite insert_item_run.
    destruct (insert_one c y); [ reflexivity | | congruence ].
    destruct y; try discriminate. reflexivity. }
  pose proof (insert_item_holds y c Hi Hverdict) as Hy0.
  pose proof (insert_item_extends insert_one y c) as Hext.
  rewrite (for_cons_returns _ _ _ _ Er) in Hno |- *. simpl in Hno |- *.
  rewrite verdicts_app in Hno.
  pose proof (stable_for extends extends_refl extends_trans _ items
                (insert_item_extends insert_one)
                (collection_of (insert_item insert_one y c))) as Hexts.
  destruct Hx as [<- | Hx].
  - apply (holds_extends _ _ _ Hexts). exact Hy0.
  - apply IH; try assumption.
    + rewrite (extends_has_index _ _ _ Hext). assumption.
    + intros H. apply Hno, in_or_app. right. assumption.
Qed.

Lemma insert_data_from_file_complete self k :
  (forall o, In o (s3_bucket self) ->
             Forall (fun x => is_mapping x = true) (records (content o))) ->
  complete (s3_bucket self) (insert_data_from_file insert_one self k).
Proof.
  intros Hmap c Hi Hno k' o x Hk Ho Hx.
  rewrite insert_data_from_file_fetched in Hk. destruct Hk as [<- | []].
  assert (Hin : In o (s3_bucket self)) by (apply (find_some _ _ Ho)).
  specialize (Hmap o Hin).
  rewrite insert_data_from_file_run, Ho in Hno |- *.
  destruct (content o) as [ | data ]; [ destruct Hx | ].
  simpl in Hno |- *. rewrite verdicts_app in Hno.
  assert (Hno' : ~ In OtherError (verdicts (trace_of (insert_data insert_one data c))))
    by (intros H; apply Hno, in_or_app; left; assumption).
  clear Hno.
  destruct data as [ | b | n | s | items | fields ];
    try (simpl in Hx, Hno' |- *; destruct Hx as [<- | []];
         apply (insert_item_holds _ c Hi);
         intros E; apply Hno'; rewrite insert_item_run, E; left; reflexivity).
  simpl in Hx, Hmap, Hno' |- *. apply insert_items_hold; assumption.
Qed.

Lemma load_batch_complete self name :
  (forall o, In o (s3_bucket self) ->
             Forall (fun x => is_mapping x = true) (records (content o))) ->
  complete (s3_bucket self) (load_batch insert_one self name).
Proof.
  intros Hmap.
  pose proof (complete_for (s3_bucket self) (insert_data_from_file insert_one self)
                (fun k => insert_data_from_file_complete self k Hmap)
                (insert_data_from_file_returns insert_one self)
                (insert_data_from_file_extends insert_one self)) as Hfiles.
  intros c Hi. rewrite load_batch_run.
  destruct (resolve _ _ _ _); simpl.
  - apply Hfiles. assumption.
  - apply Hfiles. assumption.
  - intros _ k o x [].
Qed.

Lemma load_batches_complete self names :
  (forall o, In o (s3_bucket self) ->
             Forall (fun x => is_mapping x = true) (records (content o))) ->
  complete (s3_bucket self) (load_json_files_from_batches insert_one self names).
Proof.
  intros Hmap. apply complete_for.
  - intros name. apply load_batch_complete. assumption.
  - apply load_batch_returns.
  - apply load_batch_extends.
Qed.

(** X12: nothing fetched is lost: in a bucket whose records are all
    dicts, after a run that met no write error the collection holds
    the identifier value of every record of every object the run
    fetched, inserted by this run or present before. *)
Theorem every_fetched_record_ends_in_the_collection s3 cfg c :
  (forall o, In o s3 -> Forall (fun x => is_mapping x = true) (records (content o))) ->
  let run := main create_index insert_one s3 cfg c in
  ~ In OtherError (verdicts (trace_of run)) ->
  forall k o x,
    In k (fetched (trace_of run)) ->
    object_get s3 k = Some o ->
    In x (records (content o)) ->
    In (identifier x) (map identifier (docs (collection_of run))).
Proof.
  intros Hmap run. unfold run. rewrite main_run.
  destruct (create_index c cutout_id); [ | intros _ k o x [] ].
  simpl. intros Hno k o x Hk Ho Hx.
  apply (load_batches_complete (new_loader s3 cfg) (batches cfg) Hmap
           (add_index c cutout_id) (has_index_add_index c cutout_id) Hno k o x Hk Ho Hx).
Qed.

End Completeness.

(** ** Batch names and what a run reports *)

Section BatchNames.
Variable insert_one : collection -> json -> insert_result.

Lemma insert_data_from_file_file_events self k :
  emits_only file_event (insert_data_from_file insert_one self k).
Proof.
  intros c. rewrite insert_data_from_file_run.
  destruct (object_get (s3_bucket self) k) as [o | ]; [ | repeat constructor ].
  destruct (content o) as [ | data ]; [ repeat constructor | ].
  simpl. constructor; [ exact I | ]. apply Forall_app. split.
  - eapply Forall_impl; [ | apply insert_data_events ].
    intros e He. destruct e as [ | | | | | [ | | ] [ | | | | | | | ] ]; try destruct He; exact I.
  - destruct (result_of (insert_data insert_one data c)); repeat constructor.
Qed.

Lemma batch_files_not_found self dir c :
  not_found (trace_of (batch_files insert_one self dir c)) = [].
Proof.
  apply not_found_none.
  eapply Forall_impl; [ | apply (emits_for file_event); intros k;
                          apply insert_data_from_file_file_events ].
  intros e He. destruct e as [ | | | | | [ | | ] [ | | | | | | | ] ]; try destruct He; exact I.
Qed.

Lemma load_batch_fetched self name c :
  fetched (trace_of (load_batch insert_one self name c)) = resolved_listing self name.
Proof.
  rewrite load_batch_run. unfold resolved_listing.
  destruct (resolve _ _ _ _); simpl; try reflexivity;
    unfold batch_files; apply insert_files_fetched.
Qed.

Lemma load_batch_not_found self name c :
  not_found (trace_of (load_batch insert_one self name c))
  = if unresolved self name then [os_path_join (secondary_s3_root self) name] else [].
Proof.
  rewrite load_batch_run. unfold unresolved.
  destruct (resolve _ _ _ _); simpl; try reflexivity; apply batch_files_not_found.
Qed.

(** X13: a batch name that begins with the separator makes
    [os.path.join] drop the root: both candidate directories are the
    name itself, so such a batch is never read from the secondary root,
    and when nothing is under the name the same prefix is probed twice
    before the warning. *)
Theorem absolute_batch_name_ignores_the_roots self batch_name c :
  startswith batch_name "/" = true ->
  os_path_join (primary_s3_root self) batch_name = batch_name
  /\ os_path_join (secondary_s3_root self) batch_name = batch_name
  /\ resolve (s3_bucket self) batch_name (primary_s3_root self) (secondary_s3_root self)
     <> ResolvedSecondary
  /\ (exists_under (s3_bucket self) batch_name = false ->
      load_batch insert_one self batch_name c =
        (Return tt, c,
         [S3Probe (folder_prefix batch_name) false;
          S3Probe (folder_prefix batch_name) false;
          Log WARNING (BatchNotFound batch_name)])).
Proof.
  intros Habs.
  assert (Hj : forall root, os_path_join root batch_name = batch_name)
    by (intros root; unfold os_path_join; rewrite Habs; reflexivity).
  split; [ apply Hj | ]. split; [ apply Hj | ]. split.
  - unfold resolve. rewrite !Hj.
    destruct (exists_under (s3_bucket self) batch_name); discriminate.
  - intros Hno. rewrite load_batch_run. unfold resolve. rewrite !Hj, Hno. reflexivity.
Qed.

(** X14: a run reports each batch found under neither root once, in
    the order of the batch list, under the name of its secondary
    directory; when no batch of the list is found the collection is
    left as it was and nothing is fetched or handed to the store. *)
Theorem one_warning_per_unresolved_batch self names c :
  let r := load_json_files_from_batches insert_one self names c in
  not_found (trace_of r)
  = map (os_path_join (secondary_s3_root self)) (filter (unresolved self) names)
  /\ (forallb (unresolved self) names = true ->
      collection_of r = c /\ fetched (trace_of r) = [] /\ attempts (trace_of r) = []).
Proof.
  revert c. induction names as [ | name names IH ]; intros c.
  - simpl. split; [ reflexivity | intros _; repeat split ].
  - cbv zeta in IH |- *. rewrite load_batches_cons. cbv zeta. simpl.
    rewrite not_found_app, load_batch_not_found.
    destruct (IH (collection_of (load_batch insert_one self name c))) as [IH1 IH2].
    rewrite IH1. split.
    + destruct (unresolved self name); reflexivity.
    + intros Hall. apply Bool.andb_true_iff in Hall. destruct Hall as [Hname Hrest].
      assert (Hrun : load_batch insert_one self name c
                     = (Return tt, c,
                        [S3Probe (folder_prefix (os_path_join (primary_s3_root self) name)) false;
                         S3Probe (folder_prefix (os_path_join (secondary_s3_root self) name)) false;
                         Log WARNING (BatchNotFound (os_path_join (secondary_s3_root self) name))])).
      { rewrite load_batch_run. unfold unresolved in Hname.
        destruct (resolve _ _ _ _); try discriminate. reflexivity. }
      rewrite Hrun in IH2 |- *. simpl in IH2 |- *.
      apply IH2. assumption.
Qed.

(** X15: a batch found under neither root does not disturb the others:
    the run over a list that names it ends with the same collection,
    the same fetches and the same insert attempts and answers as the
    run over the list without it. *)
Theorem unresolved_batch_does_not_disturb_the_others self name before after c :
  unresolved self name = true ->
  let r := load_json_files_from_batches insert_one self (before ++ name :: after) c in
  let r' := load_json_files_from_batches insert_one self (before ++ after) c in
  collection_of r = collection_of r'
  /\ fetched (trace_of r) = fetched (trace_of r')
  /\ attempts (trace_of r) = attempts (trace_of r')
  /\ verdicts (trace_of r) = verdicts (trace_of r')
  /\ length (not_found (trace_of r)) = S (length (not_found (trace_of r'))).
Proof.
  intros Hname r r'. unfold r, r'. clear r r'.
  assert (Hrun : forall c1, load_batch insert_one self name c1
                 = (Return tt, c1,
                    [S3Probe (folder_prefix (os_path_join (primary_s3_root self) name)) false;
                     S3Probe (folder_prefix (os_path_join (secondary_s3_root self) name)) false;
                     Log WARNING (BatchNotFound (os_path_join (secondary_s3_root self) name))])).
  { intros c1. rewrite load_batch_run. unfold unresolved in Hname.
    destruct (resolve _ _ _ _); try discriminate. reflexivity. }
  unfold load_json_files_from_batches.
  rewrite !(for_app_returns _ (load_batch_returns insert_one self)).
  rewrite (for_cons_returns _ _ _ _ (load_batch_returns insert_one self name _)).
  rewrite Hrun. simpl.
  rewrite !fetched_app, !attempts_app, !verdicts_app, !not_found_app, !length_app. simpl.
  repeat split. lia.
Qed.

(** X16: which objects a run fetches is decided by the bucket and the
    batch list alone: the keys fetched are the listings the batch names
    resolve to, in the order of the batch list, whatever the store
    answers and whatever the collection holds. *)
Theorem fetches_depend_on_bucket_and_batches_only self names c :
  fetched (trace_of (load_json_files_from_batches insert_one self names c))
  = flat_map (resolved_listing self) names.
Proof.
  revert c. induction names as [ | name names IH ]; intros c; [ reflexivity | ].
  rewrite load_batches_cons. cbv zeta. simpl.
  rewrite fetched_app, load_batch_fetched, IH. reflexivity.
Qed.

End BatchNames.

(** ** Nothing reaches the store that was not fetched *)

Lemma inserted_attempted t d : In d (inserted t) -> In d (attempts t).
Proof.
  induction t as [ | e t IH ]; [ intros [] | ].
  destruct e as [ | | | | d' [ | | ] | ]; simpl; auto.
  - intros [-> | H]; [ left; reflexivity | right; auto ].
Qed.

Lemma sound_for b {X} (f : X -> M unit) :
  (forall x, sound b (f x)) ->
  (forall x c, result_of (f x c) = Return tt) ->
  forall xs, sound b (for_ xs f).
Proof.
  intros Hs Hret xs. induction xs as [ | y xs IH ]; intros c d Hd.
  - destruct Hd.
  - rewrite (for_cons_returns _ _ _ _ (Hret y c)) in Hd |- *. simpl in Hd |- *.
    rewrite attempts_app in Hd. apply in_app_or in Hd.
    destruct Hd as [Hd | Hd].
    + destruct (Hs y c d Hd) as [k [o [Hk H]]].
      exists k, o. split; [ | exact H ].
      rewrite fetched_app. apply in_or_app. left. exact Hk.
    + destruct (IH _ d Hd) as [k [o [Hk H]]].
      exists k, o. split; [ | exact H ].
      rewrite fetched_app. apply in_or_app. right. exact Hk.
Qed.

Section Provenance.
Variable create_index : collection -> string -> bool.
Variable insert_one : collection -> json -> insert_result.

Lemma insert_data_attempts data c d :
  In d (attempts (trace_of (insert_data insert_one data c))) -> In d (records (Json data)).
Proof.
  assert (Hone : forall item, In d (attempts (trace_of (insert_item insert_one item c))) ->
                              In d [item]).
  { intros item. rewrite insert_item_run.
    destruct (insert_one c item); [ | destruct item | ]; simpl; auto. }
  destruct data as [ | b | n | s | items | fields ]; simpl; try apply Hone.
  rewrite (insert_items_attempts insert_one items c).
  intros H. rewrite <- (firstn_skipn (length (verdicts (trace_of
                         (for_ items (insert_item insert_one) c)))) items).
  apply in_or_app. left. exact H.
Qed.

Lemma insert_data_from_file_sound self k :
  sound (s3_bucket self) (insert_data_from_file insert_one self k).
Proof.
  intros c d. rewrite insert_data_from_file_fetched.
  rewrite insert_data_from_file_run.
  destruct (object_get (s3_bucket self) k) as [o | ] eqn:Ho; [ | intros [] ].
  destruct (content o) as [ | data ] eqn:Hc; [ intros [] | ].
  simpl. rewrite attempts_app. intros Hd.
  exists k, o. split; [ left; reflexivity | ]. split; [ exact Ho | ].
  rewrite Hc. apply (insert_data_attempts data c).
  apply in_app_or in Hd. destruct Hd as [Hd | Hd]; [ exact Hd | ].
  destruct (result_of (insert_data insert_one data c)); destruct Hd.
Qed.

Lemma load_batches_sound self names :
  sound (s3_bucket self) (load_json_files_from_batches insert_one self names).
Proof.
  apply sound_for; [ | apply load_batch_returns ].
  intros name c d. rewrite load_batch_run.
  pose proof (sound_for (s3_bucket self) (insert_data_from_file insert_one self)
                (insert_data_from_file_sound self)
                (insert_data_from_file_returns insert_one self)) as Hfiles.
  destruct (resolve _ _ _ _); simpl; try (intros []); apply Hfiles.
Qed.

(** X17: nothing reaches the store that was not fetched: every document
    a run hands to [insert_one] is a record of an object the run
    fetched from the bucket, so every document of the collection after
    the run was there before or is such a record. *)
Theorem only_fetched_records_reach_the_store s3 cfg c :
  let run := main create_index insert_one s3 cfg c in
  (forall d,
     In d (attempts (trace_of run)) ->
     exists k o,
       In k (fetched (trace_of run)) /\ object_get s3 k = Some o
       /\ In d (records (content o)))
  /\ (forall d,
        In d (docs (collection_of run)) ->
        In d (docs c)
        \/ exists k o,
             In k (fetched (trace_of run)) /\ object_get s3 k = Some o
             /\ In d (records (content o))).
Proof.
  intros run.
  assert (Hatt : forall d,
            In d (attempts (trace_of run)) ->
            exists k o,
              In k (fetched (trace_of run)) /\ object_get s3 k = Some o
              /\ In d (records (content o))).
  { unfold run. rewrite main_run.
    destruct (create_index c cutout_id); [ | intros d [] ].
    simpl. apply (load_batches_sound (new_loader s3 cfg) (batches cfg)). }
  split; [ exact Hatt | ].
  intros d Hd. unfold run in Hd.
  rewrite (accounted_main create_index insert_one s3 cfg c) in Hd. fold run in Hd.
  apply in_app_or in Hd. destruct Hd as [Hd | Hd]; [ left; exact Hd | right ].
  apply Hatt. apply inserted_attempted. exact Hd.
Qed.

(** X18: an empty batch name takes the whole primary root: for a root
    that [Path] has normalised the directory is the root and the
    separator, so every key of the bucket under the root that ends in
    [.json], whatever batch it belongs to, is fetched. *)
Theorem empty_batch_name_takes_the_whole_root self c :
  primary_s3_root self <> "" ->
  endswith (primary_s3_root self) "/" = false ->
  os_path_join (primary_s3_root self) "" = (primary_s3_root self ++ "/")%string
  /\ forall o,
       In o (s3_bucket self) ->
       startswith (key o) (primary_s3_root self ++ "/")%string = true ->
       endswith (key o) ".json" = true ->
       In (key o) (fetched (trace_of (load_batch insert_one self "" c))).
Proof.
  intros Hroot He.
  assert (Hj : os_path_join (primary_s3_root self) "" = (primary_s3_root self ++ "/")%string).
  { unfold os_path_join. rewrite He.
    destruct (String.eqb_spec (primary_s3_root self) ""); [ contradiction | reflexivity ]. }
  split; [ exact Hj | ].
  intros o Ho Hs Hjson.
  assert (Hp : folder_prefix (primary_s3_root self ++ "/")%string
               = (primary_s3_root self ++ "/")%string).
  { pose proof (folder_prefix_endswith (primary_s3_root self)) as H.
    unfold folder_prefix in H at 1. rewrite He in H. simpl in H.
    unfold folder_prefix. rewrite H. reflexivity. }
  assert (Hex : exists_under (s3_bucket self) (primary_s3_root self ++ "/")%string = true).
  { unfold exists_under. apply existsb_exists. exists o. rewrite Hp. split; assumption. }
  rewrite load_batch_fetched. unfold resolved_listing, resolve. rewrite Hj, Hex.
  apply json_keys_In. exists o. repeat split; assumption.
Qed.

End Provenance.

(** ** The further theorems at concrete inputs *)



(** X7 at a key batch [B] does not hold. *)
Lemma missing_key_is_absorbed_witness :
  object_get (s3_bucket mixed_loader) "root/B/zzz.json" = None
  /\ insert_data_from_file (unique_insert_one requires_v) mixed_loader "root/B/zzz.json"
       (indexed [])
     = (Return tt, indexed [],
        [S3Get "root/B/zzz.json"; Log ERROR (FailedInsert "root/B/zzz.json" NoSuchKey)]).
Proof.
  split; [ reflexivity | ].
  exact (proj1 (missing_key_is_absorbed (unique_insert_one requires_v) mixed_loader
                  "root/B/zzz.json" (indexed []) eq_refl)).
Defined.

(** X9 at a data type other than [cutouts], on the empty collection. *)
Lemma index_creation_is_idempotent_witness :
  (forall c f, has_index c f = true -> unique_create_index c f = true)
  /\ result_of (create_id_index unique_create_index "images" empty_collection) = Return tt
  /\ create_id_index unique_create_index "images"
       (collection_of (create_id_index unique_create_index "images" empty_collection))
     = (Return tt, {| docs := []; indexes := ["image_id"] |},
        [CreateIndex "image_id" true; Log INFO (IndexCreated "image_id")]).
Proof.
  split; [ exact unique_create_index_again | ]. split; [ reflexivity | ].
  exact (proj2 (proj2 (index_creation_is_idempotent unique_create_index
                         unique_create_index_again "images" empty_collection)
                      eq_refl)).
Defined.

(** X11 at batch [T] named twice. *)
Lemma repeated_batches_insert_nothing_new_witness :
  has_index (indexed []) cutout_id = true
  /\ ~ In OtherError
         (verdicts (trace_of (load_json_files_from_batches (unique_insert_one accept_all)
                                ten_loader ["T"] (indexed []))))
  /\ collection_of (load_json_files_from_batches (unique_insert_one accept_all)
                      ten_loader ["T"; "T"] (indexed []))
     = collection_of (load_json_files_from_batches (unique_insert_one accept_all)
                        ten_loader ["T"] (indexed [])).
Proof.
  assert (Hno : ~ In OtherError
                    (verdicts (trace_of (load_json_files_from_batches
                                           (unique_insert_one accept_all)
                                           ten_loader ["T"] (indexed []))))).
  { vm_compute. intros H. repeat (destruct H as [H | H]; [ discriminate | ]). exact H. }
  split; [ reflexivity | ]. split; [ exact Hno | ].
  exact (proj1 (repeated_batches_insert_nothing_new (unique_insert_one accept_all)
                  (unique_insert_one_enforces accept_all) ten_loader ["T"] (indexed [])
                  eq_refl Hno)).
Defined.

Lemma ten_bucket_records_are_dicts :
  forall o, In o ten_bucket -> Forall (fun x => is_mapping x = true) (records (content o)).
Proof.
  intros o Ho. repeat (destruct Ho as [<- | Ho]; [ repeat constructor | ]). destruct Ho.
Qed.

(** X12 at batch [T] and the record of its last object. *)
Lemma every_fetched_record_ends_in_the_collection_witness :
  (forall o, In o ten_bucket -> Forall (fun x => is_mapping x = true) (records (content o)))
  /\ ~ In OtherError (verdicts (trace_of ten_run))
  /\ In "alt/T/9.json" (fetched (trace_of ten_run))
  /\ object_get ten_bucket "alt/T/9.json" = Some (object "alt/T/9.json" (cutout "t9"))
  /\ In (identifier (cutout "t9")) (map identifier (docs (collection_of ten_run))).
Proof.
  assert (Hno : ~ In OtherError (verdicts (trace_of ten_run))).
  { vm_compute. intros H. repeat (destruct H as [H | H]; [ discriminate | ]). exact H. }
  assert (Hk : In "alt/T/9.json" (fetched (trace_of ten_run)))
    by (vm_compute; do 9 right; left; reflexivity).
  split; [ exact ten_bucket_records_are_dicts | ]. split; [ exact Hno | ].
  split; [ exact Hk | ]. split; [ reflexivity | ].
  exact (every_fetched_record_ends_in_the_collection unique_create_index
           (unique_insert_one accept_all) (unique_insert_one_enforces accept_all)
           ten_bucket (config ["T"]) empty_collection ten_bucket_records_are_dicts Hno
           "alt/T/9.json" (object "alt/T/9.json" (cutout "t9")) (cutout "t9")
           Hk eq_refl (or_introl eq_refl)).
Defined.

(** X13 at the batch name [/B1]. *)
Lemma absolute_batch_name_ignores_the_roots_witness :
  startswith "/B1" "/" = true
  /\ os_path_join (primary_s3_root b1_loader) "/B1" = "/B1"
  /\ load_batch (unique_insert_one accept_all) b1_loader "/B1" (indexed [])
     = (Return tt, indexed [],
        [S3Probe "/B1/" false; S3Probe "/B1/" false; Log WARNING (BatchNotFound "/B1")]).
Proof.
  split; [ reflexivity | ].
  pose proof (absolute_batch_name_ignores_the_roots (unique_insert_one accept_all)
                b1_loader "/B1" (indexed []) eq_refl) as [H1 [_ [_ H4]]].
  split; [ exact H1 | exact (H4 eq_refl) ].
Defined.

(** X15 at batch [T] followed by a batch that is nowhere. *)
Lemma unresolved_batch_does_not_disturb_the_others_witness :
  unresolved ten_loader "nowhere" = true
  /\ collection_of (load_json_files_from_batches (unique_insert_one accept_all)
                      ten_loader ["T"; "nowhere"] (indexed []))
     = collection_of (load_json_files_from_batches (unique_insert_one accept_all)
                        ten_loader ["T"] (indexed [])).
Proof.
  split; [ reflexivity | ].
  exact (proj1 (unresolved_batch_does_not_disturb_the_others (unique_insert_one accept_all)
                  ten_loader "nowhere" ["T"] [] (indexed []) eq_refl)).
Defined.

(** X18 at the collision bucket: the empty batch name fetches the
    object of batch [abcdef]. *)
Lemma empty_batch_name_takes_the_whole_root_witness :
  primary_s3_root (new_loader collision_bucket (config [""])) <> ""
  /\ endswith (primary_s3_root (new_loader collision_bucket (config [""]))) "/" = false
  /\ In "root/abcdef/b.json"
        (fetched (trace_of (load_batch (unique_insert_one accept_all)
                              (new_loader collision_bucket (config [""])) "" (indexed [])))).
Proof.
  assert (Hroot : primary_s3_root (new_loader collision_bucket (config [""])) <> "")
    by discriminate.
  split; [ exact Hroot | ]. split; [ reflexivity | ].
  exact (proj2 (empty_batch_name_takes_the_whole_root (unique_insert_one accept_all)
                  (new_loader collision_bucket (config [""])) (indexed []) Hroot eq_refl)
               (object "root/abcdef/b.json" (cutout "y1"))
               (or_intror (or_introl eq_refl)) eq_refl eq_refl).
Defined.

(** ** The records of the objects around one that does not decode *)



Section SiblingRecords.
Variable insert_one : collection -> json -> insert_result.




End SiblingRecords.

(** ** Batch resolution and decode failure at concrete inputs *)

(** C4 fails as stated: for the batch name [/B1] objects exist under
    the secondary root, with the prefix written out and with its
    doubled separator collapsed, yet the run probes [/B1/] twice,
    under neither root, and reports the batch as not found. *)
Lemma absolute_batch_name_probes_no_root :
  primary_s3_root absolute_loader = "root"
  /\ secondary_s3_root absolute_loader = "alt"
  /\ resolve_by_roots absolute_bucket "/B1" "root" "alt" = ResolvedSecondary
  /\ (exists o, In o absolute_bucket /\ startswith (key o) "alt//B1/" = true)
  /\ (exists o, In o absolute_bucket /\ startswith (key o) "alt/B1/" = true)
  /\ load_batch (unique_insert_one accept_all) absolute_loader "/B1" (indexed [])
     = (Return tt, indexed [],
        [S3Probe "/B1/" false; S3Probe "/B1/" false; Log WARNING (BatchNotFound "/B1")]).
Proof.
  split; [ reflexivity | ]. split; [ reflexivity | ]. split; [ reflexivity | ].
  split; [ exists (object "alt//B1/a.json" (cutout "x1")); split;
           [ left; reflexivity | reflexivity ] | ].
  split; [ exists (object "alt/B1/b.json" (cutout "x2")); split;
           [ right; left; reflexivity | reflexivity ] | ].
  reflexivity.
Qed.

(** C4 at batch [S], which is under the secondary root only. *)
Lemma two_tier_resolution_of_relative_names_witness :
  startswith "S" "/" = false
  /\ primary_s3_root fallback_loader <> ""
  /\ endswith (primary_s3_root fallback_loader) "/" = false
  /\ secondary_s3_root fallback_loader <> ""
  /\ endswith (secondary_s3_root fallback_loader) "/" = false
  /\ load_batch (unique_insert_one accept_all) fallback_loader "S" (indexed [])
     = (Return tt, indexed [cutout "s1"],
        [S3Probe "root/S/" false; S3Probe "alt/S/" true; S3List "alt/S";
         Log INFO (ProcessingAlternative "alt/S" 1);
         S3Get "alt/S/a.json"; InsertOne (cutout "s1") InsertOk]).
Proof.
  assert (Hp : primary_s3_root fallback_loader <> "") by discriminate.
  assert (Hs : secondary_s3_root fallback_loader <> "") by discriminate.
  split; [ reflexivity | ]. split; [ exact Hp | ]. split; [ reflexivity | ].
  split; [ exact Hs | ]. split; [ reflexivity | ].
  exact (proj1 (two_tier_resolution_of_relative_names (unique_insert_one accept_all)
                  fallback_loader "S" (indexed []) eq_refl Hp eq_refl Hs eq_refl)).
Defined.


